(** * django-secure-media: the policy registry, the matching engine and the gate

    A shallow embedding of [django_secure_media/policies.py],
    [django_secure_media/decorators.py] and [django_secure_media/__init__.py].

    - Python [str] is a sequence of code points, [bytes] a sequence of bytes;
      [str.encode()] is the strict UTF-8 encoder.
    - Exceptions are explicit: a computation ends in [Ok v] or [Raise e].
    - Caller-supplied callables (the [access_check] of a policy, the wrapped
      view) run in a state-and-exception monad over the caller's state [W].
    - Registries are mutable objects: they live in a store indexed by
      references, next to the lazily built process-wide default registry. *)

From Stdlib Require Import ZArith List String Ascii Bool Lia.
From Stdlib Require Import Strings.Byte.
From stdpp Require Import base option list gmap.
Import ListNotations.

Local Open Scope Z_scope.

(** ** Python values *)

(** A [str] is a sequence of code points, integers from 0 to 0x10FFFF, the
    surrogates 0xD800 .. 0xDFFF included ([chr(0xD800)] is a [str]); a [bytes]
    object is a sequence of bytes. *)
Definition pystr := list Z.
Definition pybytes := list byte.

(** The arguments the code types as [str | bytes]. *)
Inductive str_or_bytes :=
| Str (s : pystr)
| Bytes (b : pybytes).

(** ASCII literals, for examples. *)
Definition str_of (s : string) : pystr :=
  map (fun a => Z.of_N (N_of_ascii a)) (list_ascii_of_string s).
Definition bytes_of (s : string) : pybytes := list_byte_of_string s.

(** What a predicate may return and what [default_allow] may hold; only the
    truth value is looked at by [if] and [not]. *)
Inductive value :=
| VNone
| VBool (b : bool)
| VInt (n : Z)
| VStr (s : pystr).

Definition truthy (v : value) : bool :=
  match v with
  | VNone => false
  | VBool b => b
  | VInt n => negb (n =? 0)
  | VStr s => match s with [] => false | _ :: _ => true end
  end.

(** ** Exceptions *)

Inductive exn :=
| TypeError
| AttributeError
| UnicodeEncodeError
| SystemError
| ValueError (msg : string)
| Http404 (msg : string)
| PermissionDenied (msg : string)
| OtherException (cls msg : string).

Inductive outcome (A : Type) :=
| Ok (a : A)
| Raise (e : exn).
Arguments Ok {A} a.
Arguments Raise {A} e.

Definition obind {A B} (c : outcome A) (k : A -> outcome B) : outcome B :=
  match c with
  | Ok a => k a
  | Raise e => Raise e
  end.

Declare Scope outcome_scope.
Delimit Scope outcome_scope with outcome.
Notation "'let!' x ':=' c 'in' k" := (obind c (fun x => k))
  (at level 10, x name, c at level 100, k at level 200) : outcome_scope.

(** ** [str.encode()]: strict UTF-8 *)

Definition byte_of_Z (z : Z) : byte :=
  match Byte.of_N (Z.to_N z) with
  | Some b => b
  | None => x00
  end.

Definition is_surrogate (c : Z) : bool := (0xD800 <=? c) && (c <=? 0xDFFF).

(** One code point; [None] where the strict error handler raises. *)
Definition utf8_encode_char (c : Z) : option pybytes :=
  if c <? 0x80 then Some [byte_of_Z c]
  else if c <? 0x800 then
    Some [byte_of_Z (Z.lor 0xC0 (Z.shiftr c 6));
          byte_of_Z (Z.lor 0x80 (Z.land c 0x3F))]
  else if is_surrogate c then None
  else if c <? 0x10000 then
    Some [byte_of_Z (Z.lor 0xE0 (Z.shiftr c 12));
          byte_of_Z (Z.lor 0x80 (Z.land (Z.shiftr c 6) 0x3F));
          byte_of_Z (Z.lor 0x80 (Z.land c 0x3F))]
  else
    Some [byte_of_Z (Z.lor 0xF0 (Z.shiftr c 18));
          byte_of_Z (Z.lor 0x80 (Z.land (Z.shiftr c 12) 0x3F));
          byte_of_Z (Z.lor 0x80 (Z.land (Z.shiftr c 6) 0x3F));
          byte_of_Z (Z.lor 0x80 (Z.land c 0x3F))].

Fixpoint str_encode (s : pystr) : outcome pybytes :=
  match s with
  | [] => Ok []
  | c :: s' =>
      match utf8_encode_char c with
      | None => Raise UnicodeEncodeError
      | Some bs => (let! r := str_encode s' in Ok (bs ++ r))%outcome
      end
  end.

(** [p.encode()] on a prefix: [bytes] has no [encode] attribute. *)
Definition encode (p : str_or_bytes) : outcome pybytes :=
  match p with
  | Str s => str_encode s
  | Bytes _ => Raise AttributeError
  end.

(** [tuple(p.encode() for p in prefixes)]: left to right, the first failure
    is the one raised. *)
Fixpoint encode_all (prefixes : list str_or_bytes) : outcome (list pybytes) :=
  match prefixes with
  | [] => Ok []
  | p :: rest =>
      (let! b := encode p in
       let! bs := encode_all rest in
       Ok (b :: bs))%outcome
  end.

(** ** [startswith] *)

(** [s[:len(p)] == p]. *)
Fixpoint starts_with {A} (eqb : A -> A -> bool) (s p : list A) {struct p}
  : bool :=
  match p, s with
  | [], _ => true
  | _ :: _, [] => false
  | y :: p', x :: s' => eqb x y && starts_with eqb s' p'
  end.

(** [str.startswith(tuple)]: the elements are tried in order; a match
    returns at once, an element that is not a [str] raises [TypeError]. *)
Fixpoint str_startswith (s : pystr) (prefixes : list str_or_bytes) : outcome bool :=
  match prefixes with
  | [] => Ok false
  | Str p :: rest =>
      if starts_with Z.eqb s p then Ok true else str_startswith s rest
  | Bytes _ :: _ => Raise TypeError
  end.

(** [bytes.startswith(tuple)] on a tuple of [bytes]. *)
Definition bytes_startswith (b : pybytes) (prefixes : list pybytes) : bool :=
  existsb (starts_with Byte.eqb b) prefixes.

(** [os.fspath] returns a [str] or [bytes] argument as it is. *)
Definition os_fspath (path : str_or_bytes) : str_or_bytes := path.

(** ** Callables supplied by the caller *)

(** A computation over a state [S] that may raise: the new state is kept
    also when it raises. *)
Definition M (S A : Type) : Type := S -> outcome A * S.

Definition m_ret {S A} (a : A) : M S A := fun s => (Ok a, s).

Definition m_raise {S A} (e : exn) : M S A := fun s => (Raise e, s).

Definition m_bind {S A B} (c : M S A) (k : A -> M S B) : M S B :=
  fun s =>
    match c s with
    | (Ok a, s') => k a s'
    | (Raise e, s') => (Raise e, s')
    end.

Declare Scope m_scope.
Delimit Scope m_scope with M.
Notation "'let!' x ':=' c 'in' k" := (m_bind c (fun x => k))
  (at level 10, x name, c at level 100, k at level 200) : m_scope.

(** ** policies.py: [MediaAccessPolicy] *)

Module MediaAccessPolicy.
Section Defs.
Context {Request W : Type}.

(** [__init__] stores both arguments as they are. [restricted_prefixes] is
    the tuple of the signature, [tuple[str, ...]]; its elements are kept as
    they come, so that a tuple holding [bytes] can be looked at too. *)
Record t := init {
  restricted_prefixes : list str_or_bytes;
  access_check : Request -> str_or_bytes -> M W value
}.

Definition matches (self : t) (path : str_or_bytes) : outcome bool :=
  let tmp_path := os_fspath path in
  match tmp_path with
  | Bytes b =>
      (let! prefixes := encode_all (restricted_prefixes self) in
       Ok (bytes_startswith b prefixes))%outcome
  | Str s => str_startswith s (restricted_prefixes self)
  end.

Definition is_allowed (self : t) (request : Request) (path : str_or_bytes)
  : M W value :=
  access_check self request path.

End Defs.
Arguments t : clear implicits.
End MediaAccessPolicy.

(** ** policies.py: [MediaAccessPolicyRegistry] *)

Module MediaAccessPolicyRegistry.
Section Defs.
Context {Request W : Type}.

(** [__init__(policies=(), default_allow=True)] copies the iterable into a
    list of its own. *)
Record t := init {
  policies : list (MediaAccessPolicy.t Request W);
  default_allow : value
}.

(** [self.policies.append(policy)], as the new state of [self]. *)
Definition register (self : t) (policy : MediaAccessPolicy.t Request W) : t :=
  {| policies := policies self ++ [policy];
     default_allow := default_allow self |}.

(** The [for] loop of [get_policy_for_path]. *)
Fixpoint scan (l : list (MediaAccessPolicy.t Request W)) (path : str_or_bytes)
  : outcome (option (MediaAccessPolicy.t Request W)) :=
  match l with
  | [] => Ok None
  | policy :: rest =>
      (let! m := MediaAccessPolicy.matches policy path in
       if (m : bool) then Ok (Some policy) else scan rest path)%outcome
  end.

Definition get_policy_for_path (self : t) (path : str_or_bytes)
  : outcome (option (MediaAccessPolicy.t Request W)) :=
  scan (policies self) path.

(** An instance of [MediaAccessPolicy] is always true in [if policy:]. *)
Definition is_allowed (self : t) (request : Request) (path : str_or_bytes)
  : M W value :=
  fun w =>
    match get_policy_for_path self path with
    | Raise e => (Raise e, w)
    | Ok (Some policy) => MediaAccessPolicy.is_allowed policy request path w
    | Ok None => (Ok (default_allow self), w)
    end.

End Defs.
Arguments t : clear implicits.
End MediaAccessPolicyRegistry.

(** ** The store of registries and the lazy default registry *)

Section Store.
Context {Request W : Type}.

(** [registries] holds every registry object by reference;
    [default_wrapped] is the [_wrapped] slot of the module-level
    [registry = DefaultMediaAccessPolicyRegistry()], empty until first use;
    [caller] is the state the caller's callables work on (they do not reach
    the registries). *)
Record World := {
  registries : gmap nat (MediaAccessPolicyRegistry.t Request W);
  default_wrapped : option nat;
  caller : W
}.

Definition with_caller (σ : World) (w : W) : World :=
  {| registries := registries σ;
     default_wrapped := default_wrapped σ;
     caller := w |}.

Definition with_registry (σ : World) (l : nat)
    (R : MediaAccessPolicyRegistry.t Request W) : World :=
  {| registries := <[l := R]> (registries σ);
     default_wrapped := default_wrapped σ;
     caller := caller σ |}.

(** Run a caller's computation on the caller's part of the world. *)
Definition lift {A} (c : M W A) : M World A :=
  fun σ => let '(r, w) := c (caller σ) in (r, with_caller σ w).

(** A reference no registry object has yet. *)
Definition fresh_ref (σ : World) : nat := fresh (dom (registries σ)).

(** [DefaultMediaAccessPolicyRegistry._setup]: the class named by
    [DjangoSecureMediaConfig.default_registry] (apps.py:
    [django_secure_media.policies.MediaAccessPolicyRegistry]) is instantiated
    without arguments and kept in [_wrapped]. *)
Definition _setup (σ : World) : World :=
  {| registries :=
       <[fresh_ref σ := MediaAccessPolicyRegistry.init [] (VBool true)]>
         (registries σ);
     default_wrapped := Some (fresh_ref σ);
     caller := caller σ |}.

(** Any use of the proxy goes to [_wrapped], after [_setup] if it is still
    empty. *)
Definition wrapped : M World nat :=
  fun σ =>
    match default_wrapped σ with
    | Some l => (Ok l, σ)
    | None => (Ok (fresh_ref σ), _setup σ)
    end.

(** The state of the registry object at a reference. A Python reference
    always has its object; for a reference the store does not hold the model
    raises [SystemError], which no run of the code reaches. *)
Definition load (l : nat) : M World (MediaAccessPolicyRegistry.t Request W) :=
  fun σ =>
    match registries σ !! l with
    | Some R => (Ok R, σ)
    | None => (Raise SystemError, σ)
    end.

(** The objects that reach [register] and the decorator. *)
Inductive pyobj :=
| PyNone
| PyPolicy (p : MediaAccessPolicy.t Request W)
| PyRegistry (l : nat)
| PyLazyRegistry
| PyOther (truth : bool).

(** The truth value of an object: neither class defines [__bool__] or
    [__len__], so their instances are true. *)
Definition py_truth (o : pyobj) : bool :=
  match o with
  | PyNone => false
  | PyPolicy _ | PyRegistry _ | PyLazyRegistry => true
  | PyOther truth => truth
  end.

(** The proxy hands [bool], [isinstance] and attribute access to the wrapped
    registry, which it builds first when needed. *)
Definition touch (o : pyobj) : M World unit :=
  match o with
  | PyLazyRegistry => (let! _ := wrapped in m_ret tt)%M
  | _ => m_ret tt
  end.

(** [bool(o)]. *)
Definition py_bool (o : pyobj) : M World bool :=
  (let! _ := touch o in m_ret (py_truth o))%M.

(** [a or b]. *)
Definition py_or (a b : pyobj) : M World pyobj :=
  (let! t := py_bool a in m_ret (if (t : bool) then a else b))%M.

(** [isinstance(o, MediaAccessPolicyRegistry)], with the reference of the
    registry when it holds; the proxy answers with the class of the wrapped
    object. *)
Definition as_registry (o : pyobj) : M World (option nat) :=
  match o with
  | PyRegistry l => m_ret (Some l)
  | PyLazyRegistry => (let! l := wrapped in m_ret (Some l))%M
  | _ => m_ret None
  end.

(** [isinstance(o, MediaAccessPolicy)], with the policy when it holds. *)
Definition policy_of (o : pyobj) : option (MediaAccessPolicy.t Request W) :=
  match o with
  | PyPolicy p => Some p
  | _ => None
  end.

Definition as_policy (o : pyobj)
  : M World (option (MediaAccessPolicy.t Request W)) :=
  (let! _ := touch o in m_ret (policy_of o))%M.

(** The registry [register] works on: [policy_registry or default_registry],
    so the default one when the argument is [None] or any other false
    object. *)
Definition target_registry (policy_registry : pyobj) : pyobj :=
  if py_truth policy_registry then policy_registry else PyLazyRegistry.

Definition is_registry (o : pyobj) : bool :=
  match o with
  | PyRegistry _ | PyLazyRegistry => true
  | _ => false
  end.

(** [registry.register(policy)] on the object at [l]. *)
Definition registry_register (l : nat) (p : MediaAccessPolicy.t Request W)
  : M World unit :=
  (let! R := load l in
   fun σ => (Ok tt, with_registry σ l (MediaAccessPolicyRegistry.register R p)))%M.

End Store.
Arguments World : clear implicits.
Arguments pyobj : clear implicits.

(** ** __init__.py: [register] *)

Section Register.
Context {Request W : Type}.

Definition register (media_policy policy_registry : pyobj Request W)
  : M (World Request W) unit :=
  (let! registry := py_or policy_registry PyLazyRegistry in
   let! r := as_registry registry in
   match r with
   | None => m_raise (ValueError "registry must subclass MediaAccessPolicyRegistry")
   | Some l =>
       let! p := as_policy media_policy in
       match p with
       | None => m_raise (ValueError "Wrapped class must subclass MediaAccessPolicy.")
       | Some p => registry_register l p
       end
   end)%M.

End Register.

(** ** decorators.py: [secure_media_path] *)

Section Decorators.
Context {Request Response Args W : Type}.

(** A view: [view(request, path, *args, **kwargs)]. *)
Definition View : Type := Request -> str_or_bytes -> Args -> M W Response.

(** [policy_registry or default_registry], as the reference the attribute
    access on it reaches: a registry object is true, [None] is not. *)
Definition effective_registry (policy_registry : option nat)
  : M (World Request W) nat :=
  match policy_registry with
  | Some l => m_ret l
  | None => wrapped
  end.

Definition check_path (policy_registry : option nat) (view_func : View)
    (request : Request) (path : str_or_bytes) (args : Args)
  : M (World Request W) Response :=
  (let! l := effective_registry policy_registry in
   let! registry := load l in
   let! allowed :=
     lift (MediaAccessPolicyRegistry.is_allowed registry request path) in
   if negb (truthy allowed)
   then m_raise (Http404 "Restricted media file")
   else lift (view_func request path args))%M.

(** [wraps(view_func)(check_path)] copies the name and the docstring; the
    behaviour is that of [check_path]. *)
Definition decorator (policy_registry : option nat) (view_func : View) :=
  check_path policy_registry view_func.

(** With a callable the decorated view is returned, without one the
    decorator itself. *)
Definition secure_media_path (function : option View)
    (policy_registry : option nat) :=
  match function with
  | Some f => inl (decorator policy_registry f)
  | None => inr (decorator policy_registry)
  end.

End Decorators.

(** ** Conditions on a policy's prefixes *)

Definition is_str (p : str_or_bytes) : bool :=
  match p with
  | Str _ => true
  | Bytes _ => false
  end.

(** The prefixes are what the signature says: [tuple[str, ...]]. *)
Definition text_prefixes (prefixes : list str_or_bytes) : bool :=
  forallb is_str prefixes.

(** No lone surrogate: [encode()] does not raise on it. *)
Definition encodable (s : pystr) : bool :=
  forallb (fun c => negb (is_surrogate c)) s.

Definition encodable_prefix (p : str_or_bytes) : bool :=
  match p with
  | Str s => encodable s
  | Bytes _ => false
  end.

Definition encodable_prefixes (prefixes : list str_or_bytes) : bool :=
  forallb encodable_prefix prefixes.

(** No policy of [l] matches [path]: each [matches] call returns [False]. *)
Definition no_match {Request W} (l : list (MediaAccessPolicy.t Request W))
    (path : str_or_bytes) : Prop :=
  Forall (fun Q => MediaAccessPolicy.matches Q path = Ok false) l.

(** ** Further conditions and auxiliary functions *)

(** The code points a [str] can hold. *)
Definition valid_codepoint (c : Z) : bool := (0 <=? c) && (c <=? 0x10FFFF).

Definition valid_str (s : pystr) : bool := forallb valid_codepoint s.

Definition valid_prefixes (prefixes : list str_or_bytes) : bool :=
  forallb (fun p => match p with Str s => valid_str s | Bytes _ => true end)
    prefixes.

(** The numeric value of a byte. *)
Definition byte_val (b : byte) : Z := Z.of_N (Byte.to_N b).

(** The code point that the first bytes of a UTF-8 sequence stand for, read
    off the leading byte and the continuation bytes it announces. It serves
    in proofs only, to tell the encodings of two code points apart. *)
Definition utf8_head (bs : pybytes) : option Z :=
  match bs with
  | [] => None
  | b0 :: t =>
      let n0 := byte_val b0 in
      if n0 <? 0x80 then Some n0
      else if n0 <? 0xE0 then
        match t with
        | b1 :: _ => Some ((n0 - 0xC0) * 64 + (byte_val b1 - 0x80))
        | _ => None
        end
      else if n0 <? 0xF0 then
        match t with
        | b1 :: b2 :: _ =>
            Some ((n0 - 0xE0) * 4096 + (byte_val b1 - 0x80) * 64
                  + (byte_val b2 - 0x80))
        | _ => None
        end
      else
        match t with
        | b1 :: b2 :: b3 :: _ =>
            Some ((n0 - 0xF0) * 262144 + (byte_val b1 - 0x80) * 4096
                  + (byte_val b2 - 0x80) * 64 + (byte_val b3 - 0x80))
        | _ => None
        end
  end.

(** [f] holds on 0 .. n-1; it serves in proofs only. *)
Fixpoint all_below (f : Z -> bool) (n : nat) : bool :=
  match n with
  | O => true
  | S k => f (Z.of_nat k) && all_below f k
  end.

(** Every prefix of [P2] starts with a prefix of [P1]: whatever [P2] matches,
    [P1] matches. *)
Definition covers {Request W} (P1 P2 : MediaAccessPolicy.t Request W) : Prop :=
  forall q, In (Str q) (MediaAccessPolicy.restricted_prefixes P2) ->
    exists p r, In (Str p) (MediaAccessPolicy.restricted_prefixes P1) /\
                q = p ++ r.

(** The [policy_registry] argument as [register] receives it from a caller
    that passes on what it gave [secure_media_path]. *)
Definition as_object {Request W} (policy_registry : option nat)
  : pyobj Request W :=
  match policy_registry with
  | Some l => PyRegistry l
  | None => PyNone
  end.

(** The first two steps of [register]: the registry it will work on, as a
    reference, or [None] when it is not a registry. *)
Definition resolve_target {Request W} (policy_registry : pyobj Request W)
  : M (World Request W) (option nat) :=
  (let! registry := py_or policy_registry PyLazyRegistry in
   as_registry registry)%M.

(** What a [media_policies] module does when it is loaded: one
    [register(policy, policy_registry)] call after the other; the first
    exception ends it. *)
Fixpoint register_each {Request W} (media_policies : list (pyobj Request W))
    (policy_registry : pyobj Request W) : M (World Request W) unit :=
  match media_policies with
  | [] => m_ret tt
  | media_policy :: rest =>
      (let! _ := register media_policy policy_registry in
       register_each rest policy_registry)%M
  end.

(** views.py, [UploadFileView.form_valid]: the name a file is saved under,
    ["{0}/{1}".format(folder, file.name)]. *)
Definition upload_name (folder name : pystr) : pystr :=
  folder ++ str_of "/" ++ name.

(** ** The objects of tests.py and of the example project *)

Module Examples.

(** [request.user.is_authenticated] is all the predicates read. *)
Record Request := { is_authenticated : bool }.

(** [HttpResponse(content)]: status code and content. *)
Record HttpResponse := { status_code : Z; content : string }.

(** The caller's state: how many times the view has run. *)
Definition Calls := nat.

Definition authenticated : Request := {| is_authenticated := true |}.
Definition anonymous : Request := {| is_authenticated := false |}.

(** [lambda r, p: r.user.is_authenticated] *)
Definition auth_check (r : Request) (p : str_or_bytes) : M Calls value :=
  m_ret (VBool (is_authenticated r)).

(** [lambda r, p: False] *)
Definition deny_check (r : Request) (p : str_or_bytes) : M Calls value :=
  m_ret (VBool false).

(** A predicate that fails. *)
Definition failing_check (r : Request) (p : str_or_bytes) : M Calls value :=
  m_raise (OtherException "RuntimeError" "database is down").

(** [lambda r, p: HttpResponse("OK")], counting its calls. *)
Definition ok_view (r : Request) (p : str_or_bytes) (args : unit)
  : M Calls HttpResponse :=
  fun n => (Ok {| status_code := 200; content := "OK" |}, S n).

(** tests.py, [setUp]. *)
Definition policy : MediaAccessPolicy.t Request Calls :=
  MediaAccessPolicy.init [Str (str_of "images/")] auth_check.

Definition registry : MediaAccessPolicyRegistry.t Request Calls :=
  MediaAccessPolicyRegistry.init [policy] (VBool false).

(** media_policies.py of the example project. *)
Definition auth_policy : MediaAccessPolicy.t Request Calls :=
  MediaAccessPolicy.init
    [Str (str_of "images/"); Str (str_of "profiles/")] auth_check.

Definition deny_images : MediaAccessPolicy.t Request Calls :=
  MediaAccessPolicy.init [Str (str_of "images/")] deny_check.

Definition failing_images : MediaAccessPolicy.t Request Calls :=
  MediaAccessPolicy.init [Str (str_of "images/")] failing_check.

(** A policy given [bytes] prefixes, against the signature. *)
Definition bytes_policy : MediaAccessPolicy.t Request Calls :=
  MediaAccessPolicy.init [Bytes (bytes_of "images/")] auth_check.

(** Text prefixes, one of them a lone surrogate ([chr(0xD800)]). *)
Definition surrogate_policy : MediaAccessPolicy.t Request Calls :=
  MediaAccessPolicy.init [Str [0xD800]; Str (str_of "images/")] auth_check.

(** The empty prefix after a lone surrogate. *)
Definition surrogate_catch_all : MediaAccessPolicy.t Request Calls :=
  MediaAccessPolicy.init [Str [0xD800]; Str []] auth_check.

(** The empty prefix alone. *)
Definition catch_all : MediaAccessPolicy.t Request Calls :=
  MediaAccessPolicy.init [Str []] auth_check.

(** A world with the registry of tests.py at reference 0 and no default
    registry built yet. *)
Definition world0 : World Request Calls :=
  {| registries := {[ 0%nat := registry ]};
     default_wrapped := None;
     caller := 0%nat |}.

(** The same with a registry that denies everything under [images/]. *)
Definition world_deny : World Request Calls :=
  {| registries :=
       {[ 0%nat := MediaAccessPolicyRegistry.init [deny_images] (VBool true) ]};
     default_wrapped := None;
     caller := 0%nat |}.

Definition world_failing : World Request Calls :=
  {| registries :=
       {[ 0%nat := MediaAccessPolicyRegistry.init [failing_images] (VBool true) ]};
     default_wrapped := None;
     caller := 0%nat |}.

(** forms.py, [UPLOAD_FOLDER_CHOICES]: the folders the upload form offers. *)
Definition UPLOAD_FOLDER_CHOICES : list pystr :=
  [str_of "profiles"; str_of "general"; str_of "images"].

(** A world where nothing has been registered and no registry exists. *)
Definition world_fresh : World Request Calls :=
  {| registries := ∅; default_wrapped := None; caller := 0%nat |}.

(** A policy with the same prefixes as [auth_policy] in another order, one
    of them twice. *)
Definition auth_policy_reordered : MediaAccessPolicy.t Request Calls :=
  MediaAccessPolicy.init
    [Str (str_of "profiles/"); Str (str_of "images/"); Str (str_of "profiles/")]
    auth_check.

(** A policy on a subfolder of [images/]. *)
Definition thumbs_policy : MediaAccessPolicy.t Request Calls :=
  MediaAccessPolicy.init [Str (str_of "images/thumbs/")] deny_check.

(** A predicate that forgets to return: [None]. *)
Definition none_check (r : Request) (p : str_or_bytes) : M Calls value :=
  m_ret VNone.

Definition none_images : MediaAccessPolicy.t Request Calls :=
  MediaAccessPolicy.init [Str (str_of "images/")] none_check.

Definition world_none : World Request Calls :=
  {| registries :=
       {[ 0%nat := MediaAccessPolicyRegistry.init [none_images] (VBool true) ]};
     default_wrapped := None;
     caller := 0%nat |}.

End Examples.

(** * Properties *)

(** ** Prefixes and encoding *)

Lemma starts_with_app {A} (eqb : A -> A -> bool) (p rest : list A) :
  (forall x, eqb x x = true) -> starts_with eqb (p ++ rest) p = true.
Proof.
  intros Hrefl. induction p as [|y p IH]; simpl.
  - reflexivity.
  - rewrite Hrefl. exact IH.
Qed.

Lemma starts_with_inv {A} (eqb : A -> A -> bool) (s p : list A) :
  (forall x y, eqb x y = true -> x = y) ->
  starts_with eqb s p = true -> exists rest, s = p ++ rest.
Proof.
  intros Heq. revert s. induction p as [|y p IH]; intros s H.
  - exists s. reflexivity.
  - destruct s as [|x s]; simpl in H; [discriminate|].
    apply andb_true_iff in H as [Hxy Hs].
    apply Heq in Hxy. subst y.
    destruct (IH _ Hs) as [rest ->]. exists rest. reflexivity.
Qed.


Lemma byte_eqb_refl (b : byte) : Byte.eqb b b = true.
Proof. apply byte_dec_lb. reflexivity. Qed.

Lemma str_encode_app (a b : pystr) :
  str_encode (a ++ b) =
  (let! x := str_encode a in
   let! y := str_encode b in
   Ok (x ++ y))%outcome.
Proof.
  induction a as [|c a IH]; simpl.
  - destruct (str_encode b); reflexivity.
  - destruct (utf8_encode_char c) as [bs|]; [|reflexivity].
    rewrite IH. destruct (str_encode a) as [x|e]; simpl; [|reflexivity].
    destruct (str_encode b) as [y|e]; simpl; [|reflexivity].
    rewrite app_assoc. reflexivity.
Qed.

(** The encoding of a text starts with the encoding of each of its
    prefixes. *)
Lemma str_encode_prefix (p rest : pystr) (b : pybytes) :
  str_encode (p ++ rest) = Ok b ->
  exists bp, str_encode p = Ok bp /\ starts_with Byte.eqb b bp = true.
Proof.
  rewrite str_encode_app.
  destruct (str_encode p) as [bp|e]; simpl; [|discriminate].
  destruct (str_encode rest) as [br|e]; simpl; [|discriminate].
  intros [= <-]. exists bp. split; [reflexivity|].
  apply starts_with_app, byte_eqb_refl.
Qed.

Lemma utf8_encode_char_None (c : Z) :
  utf8_encode_char c = None <-> is_surrogate c = true.
Proof.
  unfold utf8_encode_char, is_surrogate.
  destruct (c <? 0x80) eqn:E1; [split; [discriminate|lia]|].
  destruct (c <? 0x800) eqn:E2; [split; [discriminate|lia]|].
  destruct ((0xD800 <=? c) && (c <=? 0xDFFF)) eqn:E3; [split; reflexivity|].
  destruct (c <? 0x10000); split; discriminate.
Qed.

Lemma str_encode_encodable (s : pystr) :
  encodable s = true <-> exists b, str_encode s = Ok b.
Proof.
  induction s as [|c s IH]; simpl.
  - split; [exists []; reflexivity | reflexivity].
  - rewrite andb_true_iff, IH, negb_true_iff.
    destruct (utf8_encode_char c) as [bs|] eqn:E.
    + assert (is_surrogate c = false) as ->.
      { destruct (is_surrogate c) eqn:S; [|reflexivity].
        apply utf8_encode_char_None in S. congruence. }
      split.
      * intros [_ [b ->]]. simpl. eauto.
      * intros [b H]. split; [reflexivity|].
        destruct (str_encode s) as [r|e]; [eauto | discriminate].
    + apply utf8_encode_char_None in E. rewrite E. split.
      * intros [? _]. discriminate.
      * intros [b ?]. discriminate.
Qed.

(** On encodable text prefixes the generator runs to its end, and the
    encoding of each prefix is in the tuple. *)
Lemma encode_all_encodable (prefixes : list str_or_bytes) :
  encodable_prefixes prefixes = true ->
  exists bs, encode_all prefixes = Ok bs /\
    forall p bp, In (Str p) prefixes -> str_encode p = Ok bp -> In bp bs.
Proof.
  induction prefixes as [|q prefixes IH]; simpl.
  - intros _. exists []. split; [reflexivity | intros ? ? []].
  - intros H. apply andb_true_iff in H as [Hq Hrest].
    destruct (IH Hrest) as (bs & Hbs & Hin).
    destruct q as [s|b]; simpl in Hq; [|discriminate].
    apply str_encode_encodable in Hq as [bq Hbq].
    exists (bq :: bs). simpl. rewrite Hbq, Hbs. simpl. split; [reflexivity|].
    intros p bp [Hp|Hp] Henc.
    + injection Hp as ->. left. congruence.
    + right. eauto.
Qed.

Lemma encodable_text (prefixes : list str_or_bytes) :
  encodable_prefixes prefixes = true -> text_prefixes prefixes = true.
Proof.
  unfold encodable_prefixes, text_prefixes.
  induction prefixes as [|[s|b] prefixes IH]; simpl; try reflexivity.
  - intros H. apply andb_true_iff in H as [_ H]. auto.
  - discriminate.
Qed.

Lemma bytes_startswith_In (b bp : pybytes) (bs : list pybytes) :
  In bp bs -> starts_with Byte.eqb b bp = true -> bytes_startswith b bs = true.
Proof.
  intros Hin Hp. unfold bytes_startswith. apply existsb_exists. eauto.
Qed.

Lemma str_startswith_In (s p : pystr) (prefixes : list str_or_bytes) :
  text_prefixes prefixes = true ->
  In (Str p) prefixes ->
  starts_with Z.eqb s p = true ->
  str_startswith s prefixes = Ok true.
Proof.
  induction prefixes as [|q prefixes IH]; simpl; [intros _ []|].
  intros Ht Hin Hp. apply andb_true_iff in Ht as [Hq Ht].
  destruct q as [q|q]; simpl in Hq; [|discriminate].
  destruct (starts_with Z.eqb s q) eqn:E; [reflexivity|].
  destruct Hin as [Hin|Hin]; [|auto].
  injection Hin as ->. congruence.
Qed.

Lemma str_startswith_total (s : pystr) (prefixes : list str_or_bytes) :
  text_prefixes prefixes = true ->
  exists m, str_startswith s prefixes = Ok m.
Proof.
  induction prefixes as [|[q|q] prefixes IH]; simpl; [eauto| |discriminate].
  intros Ht. destruct (starts_with Z.eqb s q); eauto.
Qed.

(** ** [MediaAccessPolicy.matches] *)

Section MatchesProperties.
Context {Request W : Type}.
Implicit Types (P : MediaAccessPolicy.t Request W) (path : str_or_bytes).

Lemma matches_str_prefix P (p rest : pystr) :
  text_prefixes (MediaAccessPolicy.restricted_prefixes P) = true ->
  In (Str p) (MediaAccessPolicy.restricted_prefixes P) ->
  MediaAccessPolicy.matches P (Str (p ++ rest)) = Ok true.
Proof.
  intros Ht Hin. unfold MediaAccessPolicy.matches. simpl.
  apply str_startswith_In with p; [done|done|].
  apply starts_with_app, Z.eqb_refl.
Qed.

Lemma matches_bytes_prefix P (p rest : pystr) (b : pybytes) :
  encodable_prefixes (MediaAccessPolicy.restricted_prefixes P) = true ->
  In (Str p) (MediaAccessPolicy.restricted_prefixes P) ->
  str_encode (p ++ rest) = Ok b ->
  MediaAccessPolicy.matches P (Bytes b) = Ok true.
Proof.
  intros He Hin Hb. unfold MediaAccessPolicy.matches. simpl.
  destruct (encode_all_encodable _ He) as (bs & -> & Hbs). simpl.
  destruct (str_encode_prefix _ _ _ Hb) as (bp & Hbp & Hstart).
  f_equal. eapply bytes_startswith_In; eauto.
Qed.

(** With text prefixes that can be encoded, [matches] returns a boolean
    on every path. *)
Lemma matches_total P path :
  encodable_prefixes (MediaAccessPolicy.restricted_prefixes P) = true ->
  exists m, MediaAccessPolicy.matches P path = Ok m.
Proof.
  intros He. unfold MediaAccessPolicy.matches. destruct path as [s|b]; simpl.
  - apply str_startswith_total, encodable_text, He.
  - destruct (encode_all_encodable _ He) as (bs & -> & _). simpl. eauto.
Qed.

End MatchesProperties.

(** ** [MediaAccessPolicyRegistry]: the scan *)

Section RegistryProperties.
Context {Request W : Type}.
Implicit Types (P Q : MediaAccessPolicy.t Request W).
Implicit Types (R : MediaAccessPolicyRegistry.t Request W).
Implicit Types (path : str_or_bytes).

Lemma scan_app (l1 l2 : list (MediaAccessPolicy.t Request W)) path :
  MediaAccessPolicyRegistry.scan (l1 ++ l2) path =
  match MediaAccessPolicyRegistry.scan l1 path with
  | Ok None => MediaAccessPolicyRegistry.scan l2 path
  | r => r
  end.
Proof.
  induction l1 as [|Q l1 IH]; simpl; [reflexivity|].
  destruct (MediaAccessPolicy.matches Q path) as [[|]|e]; simpl; auto.
Qed.

Lemma scan_no_match (l : list (MediaAccessPolicy.t Request W)) path :
  MediaAccessPolicyRegistry.scan l path = Ok None <-> no_match l path.
Proof.
  unfold no_match. induction l as [|Q l IH]; simpl.
  - split; [constructor | reflexivity].
  - destruct (MediaAccessPolicy.matches Q path) as [[|]|e] eqn:E; simpl.
    + split; [discriminate | intros H; inversion H; congruence].
    + rewrite IH. split; [constructor; assumption | intros H; inversion H; assumption].
    + split; [discriminate | intros H; inversion H; congruence].
Qed.

Lemma scan_first (before after : list (MediaAccessPolicy.t Request W)) P path :
  no_match before path ->
  MediaAccessPolicy.matches P path = Ok true ->
  MediaAccessPolicyRegistry.scan (before ++ P :: after) path = Ok (Some P).
Proof.
  intros Hb HP. rewrite scan_app.
  apply scan_no_match in Hb. rewrite Hb. simpl. rewrite HP. reflexivity.
Qed.

Lemma scan_Some_inv (l : list (MediaAccessPolicy.t Request W)) P path :
  MediaAccessPolicyRegistry.scan l path = Ok (Some P) ->
  exists before after,
    l = before ++ P :: after /\ no_match before path /\
    MediaAccessPolicy.matches P path = Ok true.
Proof.
  induction l as [|Q l IH]; simpl; [discriminate|].
  destruct (MediaAccessPolicy.matches Q path) as [[|]|e] eqn:E; simpl.
  - intros [= ->]. exists [], l. repeat split; [constructor | assumption].
  - intros H. destruct (IH H) as (before & after & -> & Hb & HP).
    exists (Q :: before), after. repeat split; [constructor|]; assumption.
  - discriminate.
Qed.

(** With text prefixes that can be encoded in every policy, the scan ends
    with a policy or with [None]: it does not raise. *)
Lemma scan_total (l : list (MediaAccessPolicy.t Request W)) path :
  Forall (fun Q => encodable_prefixes (MediaAccessPolicy.restricted_prefixes Q)
                   = true) l ->
  exists r, MediaAccessPolicyRegistry.scan l path = Ok r.
Proof.
  induction 1 as [|Q l HQ _ IH]; simpl; [eauto|].
  destruct (matches_total Q path HQ) as [[|] ->]; simpl; eauto.
Qed.

End RegistryProperties.

(** ** The claims on matching and on the registry *)

Section PolicyClaims.
Context {Request W : Type}.
Implicit Types (P Q : MediaAccessPolicy.t Request W).
Implicit Types (R : MediaAccessPolicyRegistry.t Request W).
Implicit Types (path : str_or_bytes).

(** C8: a policy constructed with an empty prefix sequence matches no path:
    [matches] returns [False] for every [str] and every [bytes] path. *)
Theorem empty_prefixes_never_match
    (access_check : Request -> str_or_bytes -> M W value) path :
  MediaAccessPolicy.matches (MediaAccessPolicy.init [] access_check) path
  = Ok false.
Proof. destruct path; reflexivity. Qed.

(** C9: matching is a literal prefix test, blind to path segments: the
    policy with prefix ["images"] matches every text path and every byte path
    that starts with those characters, whatever follows them, and so
    [matches("imagesecret/x")] is [True]; on text paths the same holds for
    every policy that has ["images"] among its text prefixes. *)
Theorem prefix_match_is_literal
    (access_check : Request -> str_or_bytes -> M W value) :
  (forall rest : pystr,
     MediaAccessPolicy.matches
       (MediaAccessPolicy.init [Str (str_of "images")] access_check)
       (Str (str_of "images" ++ rest)) = Ok true) /\
  (forall rest : pybytes,
     MediaAccessPolicy.matches
       (MediaAccessPolicy.init [Str (str_of "images")] access_check)
       (Bytes (bytes_of "images" ++ rest)) = Ok true) /\
  MediaAccessPolicy.matches
    (MediaAccessPolicy.init [Str (str_of "images")] access_check)
    (Str (str_of "imagesecret/x")) = Ok true /\
  (forall P (rest : pystr),
     text_prefixes (MediaAccessPolicy.restricted_prefixes P) = true ->
     In (Str (str_of "images")) (MediaAccessPolicy.restricted_prefixes P) ->
     MediaAccessPolicy.matches P (Str (str_of "images" ++ rest)) = Ok true).
Proof.
  split; [|split; [|split]].
  - intros rest. apply matches_str_prefix; [reflexivity | left; reflexivity].
  - intros rest. unfold MediaAccessPolicy.matches. simpl.
    change (bytes_of "images" ++ rest)
      with ("i"%byte :: "m"%byte :: "a"%byte :: "g"%byte :: "e"%byte
            :: "s"%byte :: rest).
    reflexivity.
  - reflexivity.
  - intros P rest Ht Hin. apply matches_str_prefix; assumption.
Qed.

(** C2, as amended: a policy whose prefixes are text matches a text path
    that starts with one of them; when moreover every prefix can be encoded
    (holds no lone surrogate) it matches a byte path whose decoded form starts
    with one of them. So the policy with the text prefix ["images/"] matches
    both ["images/a.jpg"] and [b"images/a.jpg"]. Prefixes given as bytes are
    not converted: with a first prefix of bytes, [matches] raises [TypeError]
    on a text path and [AttributeError] on a byte path.
    ([str_encode (p ++ rest) = Ok b] says that the byte path [b] is the UTF-8
    form of a text that starts with [p]: that text is what [b] decodes to.) *)
Theorem text_prefixes_match_text_and_bytes P (p rest : pystr) (b : pybytes) :
  In (Str p) (MediaAccessPolicy.restricted_prefixes P) ->
  (text_prefixes (MediaAccessPolicy.restricted_prefixes P) = true ->
   MediaAccessPolicy.matches P (Str (p ++ rest)) = Ok true) /\
  (encodable_prefixes (MediaAccessPolicy.restricted_prefixes P) = true ->
   str_encode (p ++ rest) = Ok b ->
   MediaAccessPolicy.matches P (Bytes b) = Ok true) /\
  (forall access_check : Request -> str_or_bytes -> M W value,
     MediaAccessPolicy.matches
       (MediaAccessPolicy.init [Str (str_of "images/")] access_check)
       (Str (str_of "images/a.jpg")) = Ok true /\
     MediaAccessPolicy.matches
       (MediaAccessPolicy.init [Str (str_of "images/")] access_check)
       (Bytes (bytes_of "images/a.jpg")) = Ok true) /\
  (forall (access_check : Request -> str_or_bytes -> M W value)
          (bp : pybytes) (others : list str_or_bytes) (s : pystr) (c : pybytes),
     MediaAccessPolicy.matches
       (MediaAccessPolicy.init (Bytes bp :: others) access_check) (Str s)
     = Raise TypeError /\
     MediaAccessPolicy.matches
       (MediaAccessPolicy.init (Bytes bp :: others) access_check) (Bytes c)
     = Raise AttributeError).
Proof.
  intros Hin. split; [|split; [|split]].
  - intros Ht. apply matches_str_prefix; assumption.
  - intros He Hb. eapply matches_bytes_prefix; eassumption.
  - intros access_check. split; reflexivity.
  - intros access_check bp others s c. split; reflexivity.
Qed.

(** C3: [get_policy_for_path] returns the first policy, in registration
    order, whose [matches] is [True] (every policy before it returning
    [False]), and [None] when every policy returns [False]; a path matched by
    the first two policies resolves to the first. The converses hold too. *)
Theorem get_policy_for_path_first_match R path :
  (forall P,
     MediaAccessPolicyRegistry.get_policy_for_path R path = Ok (Some P) <->
     exists before after,
       MediaAccessPolicyRegistry.policies R = before ++ P :: after /\
       no_match before path /\
       MediaAccessPolicy.matches P path = Ok true) /\
  (MediaAccessPolicyRegistry.get_policy_for_path R path = Ok None <->
   no_match (MediaAccessPolicyRegistry.policies R) path) /\
  (forall P1 P2 rest,
     MediaAccessPolicyRegistry.policies R = P1 :: P2 :: rest ->
     MediaAccessPolicy.matches P1 path = Ok true ->
     MediaAccessPolicy.matches P2 path = Ok true ->
     MediaAccessPolicyRegistry.get_policy_for_path R path = Ok (Some P1)).
Proof.
  unfold MediaAccessPolicyRegistry.get_policy_for_path. split; [|split].
  - intros P. split.
    + apply scan_Some_inv.
    + intros (before & after & -> & Hb & HP). apply scan_first; assumption.
  - apply scan_no_match.
  - intros P1 P2 rest -> H1 _. simpl. rewrite H1. reflexivity.
Qed.

(** C4: when no policy of the registry matches the path, [is_allowed] is
    [default_allow]; when some policy matches, it is what the first matching
    policy's [is_allowed] does on the same request and path. *)
Theorem registry_is_allowed_decision R (request : Request) path (w : W) :
  (no_match (MediaAccessPolicyRegistry.policies R) path ->
   MediaAccessPolicyRegistry.is_allowed R request path w
   = (Ok (MediaAccessPolicyRegistry.default_allow R), w)) /\
  (forall before P after,
     MediaAccessPolicyRegistry.policies R = before ++ P :: after ->
     no_match before path ->
     MediaAccessPolicy.matches P path = Ok true ->
     MediaAccessPolicyRegistry.is_allowed R request path w
     = MediaAccessPolicy.is_allowed P request path w).
Proof.
  unfold MediaAccessPolicyRegistry.is_allowed,
    MediaAccessPolicyRegistry.get_policy_for_path. split.
  - intros Hn. apply scan_no_match in Hn. rewrite Hn. reflexivity.
  - intros before P after -> Hb HP.
    rewrite (scan_first before after P path Hb HP). reflexivity.
Qed.

(** C7: [register] appends and changes nothing else; after [R.register(P)]
    (1) a path that resolved to a policy of [R] resolves to the same policy,
    and (2) a path no earlier policy matches and [P] matches resolves to
    [P]. *)
Theorem register_append_only R P path :
  MediaAccessPolicyRegistry.policies (MediaAccessPolicyRegistry.register R P)
  = MediaAccessPolicyRegistry.policies R ++ [P] /\
  MediaAccessPolicyRegistry.default_allow (MediaAccessPolicyRegistry.register R P)
  = MediaAccessPolicyRegistry.default_allow R /\
  (forall Q,
     MediaAccessPolicyRegistry.get_policy_for_path R path = Ok (Some Q) ->
     MediaAccessPolicyRegistry.get_policy_for_path
       (MediaAccessPolicyRegistry.register R P) path = Ok (Some Q)) /\
  (no_match (MediaAccessPolicyRegistry.policies R) path ->
   MediaAccessPolicy.matches P path = Ok true ->
   MediaAccessPolicyRegistry.get_policy_for_path
     (MediaAccessPolicyRegistry.register R P) path = Ok (Some P)).
Proof.
  unfold MediaAccessPolicyRegistry.get_policy_for_path. simpl.
  repeat split.
  - intros Q HQ. rewrite scan_app, HQ. reflexivity.
  - intros Hn HP. apply scan_first; assumption.
Qed.

(** C10, as amended: let the prefixes of [P] be text and hold the empty
    string. Then [P] matches every text path, the empty one included, and,
    when every prefix can be encoded (no lone surrogate), every byte path.
    Wherever [P] matches, a registry holding [P] resolves the path to what the
    policies registered before [P] resolve it to, and to [P] when they match
    nothing: never to [None], never to a policy registered after [P]. *)
Theorem empty_prefix_matches_every_path P :
  In (Str []) (MediaAccessPolicy.restricted_prefixes P) ->
  text_prefixes (MediaAccessPolicy.restricted_prefixes P) = true ->
  (forall s : pystr, MediaAccessPolicy.matches P (Str s) = Ok true) /\
  (encodable_prefixes (MediaAccessPolicy.restricted_prefixes P) = true ->
   forall b : pybytes, MediaAccessPolicy.matches P (Bytes b) = Ok true) /\
  (forall path before after default_allow,
     MediaAccessPolicy.matches P path = Ok true ->
     MediaAccessPolicyRegistry.get_policy_for_path
       (MediaAccessPolicyRegistry.init (before ++ P :: after) default_allow)
       path
     = match MediaAccessPolicyRegistry.get_policy_for_path
               (MediaAccessPolicyRegistry.init before default_allow) path with
       | Ok None => Ok (Some P)
       | r => r
       end).
Proof.
  intros Hin Ht. split; [|split].
  - intros s. apply (matches_str_prefix P [] s Ht Hin).
  - intros He b. unfold MediaAccessPolicy.matches. simpl.
    destruct (encode_all_encodable _ He) as (bs & -> & Hbs). simpl.
    f_equal. apply bytes_startswith_In with []; [|reflexivity].
    apply (Hbs []); [assumption | reflexivity].
  - intros path before after d HP.
    unfold MediaAccessPolicyRegistry.get_policy_for_path. simpl.
    rewrite scan_app. simpl. rewrite HP. reflexivity.
Qed.

End PolicyClaims.

(** ** The store and the lazy default registry *)

Section StoreProperties.
Context {Request W : Type}.
Implicit Types (σ : World Request W).

Lemma fresh_ref_unused σ : registries σ !! fresh_ref σ = None.
Proof. apply not_elem_of_dom. unfold fresh_ref. apply is_fresh. Qed.

(** Building the default registry leaves every registry object as it is. *)
Lemma setup_keeps σ l (R : MediaAccessPolicyRegistry.t Request W) :
  registries σ !! l = Some R -> registries (_setup σ) !! l = Some R.
Proof.
  intros H. simpl. rewrite lookup_insert_ne; [assumption|].
  intros <-. rewrite fresh_ref_unused in H. discriminate.
Qed.

Lemma setup_default σ :
  registries (_setup σ) !! fresh_ref σ
  = Some (MediaAccessPolicyRegistry.init [] (VBool true)).
Proof. simpl. apply lookup_insert_eq. Qed.

(** Reaching the wrapped registry either finds it or builds it. *)
Lemma wrapped_cases σ :
  (exists l, default_wrapped σ = Some l /\ wrapped σ = (Ok l, σ)) \/
  (default_wrapped σ = None /\ wrapped σ = (Ok (fresh_ref σ), _setup σ)).
Proof.
  unfold wrapped. destruct (default_wrapped σ) as [l|]; [left; eauto | right; auto].
Qed.

End StoreProperties.

(** ** The gate *)

Section GateClaims.
Context {Request Response Args W : Type}.
Implicit Types (σ : World Request W).
Implicit Types (R : MediaAccessPolicyRegistry.t Request W).
Implicit Types (view_func : @View Request Response Args W).

(** The gate, once the registry it consults is known. *)
Lemma check_path_unfold policy_registry view_func request path args σ l σ1 R :
  effective_registry policy_registry σ = (Ok l, σ1) ->
  registries σ1 !! l = Some R ->
  check_path policy_registry view_func request path args σ =
  match MediaAccessPolicyRegistry.is_allowed R request path (caller σ1) with
  | (Ok allowed, w) =>
      if truthy allowed
      then (fst (view_func request path args w),
            with_caller σ1 (snd (view_func request path args w)))
      else (Raise (Http404 "Restricted media file"), with_caller σ1 w)
  | (Raise e, w) => (Raise e, with_caller σ1 w)
  end.
Proof.
  intros He Hl. unfold check_path, m_bind. rewrite He.
  unfold load. rewrite Hl. unfold lift at 1.
  destruct (MediaAccessPolicyRegistry.is_allowed R request path (caller σ1))
    as [[allowed|e] w]; [|reflexivity].
  destruct (truthy allowed); simpl; [|reflexivity].
  unfold lift. simpl. destruct (view_func request path args w). reflexivity.
Qed.

(** C1: let [R] be the registry the gate consults (the one supplied, else
    the default one). When [R.is_allowed(request, path)] is [False] the
    wrapped call raises [Http404] (not [PermissionDenied]) and the view is not
    run: whatever the view, the caller's state is the one [is_allowed] left.
    When it is [True] the view is called with the same request, path and
    further arguments, on the state [is_allowed] left, and its result and its
    effects are those of the wrapped call. *)
Theorem gate_forwards_or_hides
    policy_registry view_func request path args σ l σ1 R (allowed : bool) w :
  effective_registry policy_registry σ = (Ok l, σ1) ->
  registries σ1 !! l = Some R ->
  MediaAccessPolicyRegistry.is_allowed R request path (caller σ1)
  = (Ok (VBool allowed), w) ->
  check_path policy_registry view_func request path args σ =
  if allowed
  then (fst (view_func request path args w),
        with_caller σ1 (snd (view_func request path args w)))
  else (Raise (Http404 "Restricted media file"), with_caller σ1 w).
Proof.
  intros He Hl Ha.
  rewrite (check_path_unfold _ _ _ _ _ _ _ _ _ He Hl), Ha. reflexivity.
Qed.

(** C6: when the first policy of [R] matching the path has a predicate that
    raises [e] on the request and the path, [R.is_allowed] raises [e], and so
    does the wrapped call of a gate consulting [R]: the same exception, with
    the effects the predicate had, and not [Http404]. *)
Theorem predicate_failure_propagates
    R (P : MediaAccessPolicy.t Request W) request path (e : exn) (w w' : W) :
  MediaAccessPolicyRegistry.get_policy_for_path R path = Ok (Some P) ->
  MediaAccessPolicy.access_check P request path w = (Raise e, w') ->
  MediaAccessPolicyRegistry.is_allowed R request path w = (Raise e, w') /\
  (forall policy_registry view_func args σ l σ1,
     effective_registry policy_registry σ = (Ok l, σ1) ->
     registries σ1 !! l = Some R ->
     caller σ1 = w ->
     check_path policy_registry view_func request path args σ
     = (Raise e, with_caller σ1 w')).
Proof.
  intros HP He.
  assert (MediaAccessPolicyRegistry.is_allowed R request path w = (Raise e, w'))
    as Hr.
  { unfold MediaAccessPolicyRegistry.is_allowed. rewrite HP. exact He. }
  split; [exact Hr|].
  intros policy_registry view_func args σ l σ1 Heff Hl Hw.
  rewrite (check_path_unfold _ _ _ _ _ _ _ _ _ Heff Hl), Hw, Hr. reflexivity.
Qed.

End GateClaims.

(** ** The free function [register] *)

Section RegisterClaims.
Context {Request W : Type}.
Implicit Types (σ : World Request W).
Implicit Types (R : MediaAccessPolicyRegistry.t Request W).
Implicit Types (media_policy policy_registry : pyobj Request W).

Lemma touch_cases (o : pyobj Request W) σ :
  exists σ', touch o σ = (Ok tt, σ') /\
    (σ' = σ \/ default_wrapped σ = None /\ σ' = _setup σ) /\
    (o <> PyLazyRegistry -> σ' = σ).
Proof.
  destruct o; simpl; try (exists σ; unfold m_ret; intuition congruence).
  unfold m_bind, m_ret.
  destruct (wrapped_cases σ) as [(l & Hd & ->)|[Hd ->]].
  - exists σ. intuition.
  - exists (_setup σ). intuition.
Qed.

(** What a call of [register] comes to, case by case. *)
Lemma register_run media_policy policy_registry σ :
  (policy_of media_policy = None \/
   is_registry (target_registry policy_registry) = false ->
   exists msg σ',
     register media_policy policy_registry σ = (Raise (ValueError msg), σ') /\
     (σ' = σ \/ default_wrapped σ = None /\ σ' = _setup σ) /\
     (forall l R, registries σ !! l = Some R -> registries σ' !! l = Some R)) /\
  (forall p l R,
     media_policy = PyPolicy p ->
     policy_registry = PyRegistry l ->
     registries σ !! l = Some R ->
     register media_policy policy_registry σ
     = (Ok tt, with_registry σ l (MediaAccessPolicyRegistry.register R p))) /\
  (forall p l σ1 R,
     media_policy = PyPolicy p ->
     target_registry policy_registry = PyLazyRegistry ->
     wrapped σ = (Ok l, σ1) ->
     registries σ1 !! l = Some R ->
     register media_policy policy_registry σ
     = (Ok tt, with_registry σ1 l (MediaAccessPolicyRegistry.register R p))).
Proof.
  split; [|split].
  - intros Hbad.
    assert (forall σ', (σ' = σ \/ default_wrapped σ = None /\ σ' = _setup σ) ->
              forall l R, registries σ !! l = Some R ->
                          registries σ' !! l = Some R) as Hkeep.
    { intros σ' [->|[_ ->]] l R H; [assumption | apply setup_keeps, H]. }
    unfold register, py_or, py_bool, m_bind.
    destruct (touch_cases policy_registry σ) as (σa & -> & Ha & Hsame).
    unfold m_ret at 1 2. fold (target_registry policy_registry).
    destruct (is_registry (target_registry policy_registry)) eqn:Hreg.
    + destruct Hbad as [Hpol|?]; [|discriminate].
      assert (exists l σb, as_registry (target_registry policy_registry) σa
                           = (Ok (Some l), σb) /\
                (σb = σ \/ default_wrapped σ = None /\ σb = _setup σ))
        as (l & σb & -> & Hb).
      { destruct (target_registry policy_registry) eqn:Ht; try discriminate.
        - exists l, σa. split; [reflexivity | assumption].
        - simpl. unfold m_bind, m_ret.
          destruct (wrapped_cases σa) as [(l & Hd & ->)|[Hd ->]].
          + exists l, σa. split; [reflexivity | assumption].
          + exists (fresh_ref σa), (_setup σa). split; [reflexivity|].
            destruct Ha as [->|[? ->]]; [right; split; [assumption|reflexivity]|].
            simpl in Hd. discriminate. }
      unfold as_policy, m_bind.
      destruct (touch_cases media_policy σb) as (σc & -> & Hc & _).
      unfold m_ret at 1. rewrite Hpol. unfold m_raise.
      eexists _, σc. split; [reflexivity|].
      assert (σc = σ \/ default_wrapped σ = None /\ σc = _setup σ) as Hfin.
      { destruct Hb as [->|[Hd ->]]; [assumption|].
        destruct Hc as [->|[Hd' ->]]; [right; split; [assumption|reflexivity]|].
        simpl in Hd'. discriminate. }
      split; [exact Hfin | exact (Hkeep _ Hfin)].
    + assert (σa = σ) as ->.
      { apply Hsame. intros ->. discriminate. }
      assert (as_registry (target_registry policy_registry) σ = (Ok None, σ))
        as ->.
      { destruct (target_registry policy_registry); try discriminate;
          reflexivity. }
      unfold m_raise. eexists _, σ. split; [reflexivity|].
      split; [left; reflexivity | auto].
  - intros p l R -> -> Hl. unfold register, py_or, py_bool, m_bind. simpl.
    unfold registry_register, m_bind, load. rewrite Hl. reflexivity.
  - intros p l σ1 R -> Ht Hw Hl.
    assert (wrapped σ1 = (Ok l, σ1)) as Hw1.
    { destruct (wrapped_cases σ) as [(l' & Hd & Hw')|[Hd Hw']];
        rewrite Hw' in Hw; injection Hw as <- <-.
      - exact Hw'.
      - reflexivity. }
    assert (exists σa, touch policy_registry σ = (Ok tt, σa) /\
              (σa = σ \/ σa = σ1)) as (σa & Htouch & Hσa).
    { destruct policy_registry; simpl.
      1-3, 5: exists σ; split; [reflexivity | left; reflexivity].
      unfold m_bind. rewrite Hw. exists σ1. split; [reflexivity | right; reflexivity]. }
    unfold register, py_or, py_bool, m_bind. rewrite Htouch.
    unfold m_ret at 1 2. fold (target_registry policy_registry). rewrite Ht.
    simpl. unfold m_bind at 1.
    assert (wrapped σa = (Ok l, σ1)) as ->.
    { destruct Hσa as [->| ->]; assumption. }
    unfold m_ret at 1. simpl.
    unfold registry_register, m_bind, load. rewrite Hl. reflexivity.
Qed.

(** C5: [register] raises [ValueError] whenever the registry it would work
    on ([policy_registry], or the default registry when that is [None] or
    false) is not a [MediaAccessPolicyRegistry] or the policy is not a
    [MediaAccessPolicy]; no registry object is changed by then (at most the
    default registry has been built, empty). With a policy and a registry the
    call returns and the policy is appended to that registry: afterwards the
    registry holds the policies it held followed by the new one, with its
    [default_allow], and every other registry, the default slot and the
    caller's state are as before. When none is supplied ([None], a false
    object, or the default registry itself) the same happens to the default
    registry, which is built first if it was not there. *)
Theorem register_checks_then_appends media_policy policy_registry σ :
  (policy_of media_policy = None \/
   is_registry (target_registry policy_registry) = false ->
   exists msg σ',
     register media_policy policy_registry σ = (Raise (ValueError msg), σ') /\
     (σ' = σ \/ default_wrapped σ = None /\ σ' = _setup σ) /\
     (forall l R, registries σ !! l = Some R -> registries σ' !! l = Some R)) /\
  (forall p l R,
     media_policy = PyPolicy p ->
     policy_registry = PyRegistry l ->
     registries σ !! l = Some R ->
     fst (register media_policy policy_registry σ) = Ok tt /\
     registries (snd (register media_policy policy_registry σ)) !! l
     = Some (MediaAccessPolicyRegistry.init
               (MediaAccessPolicyRegistry.policies R ++ [p])
               (MediaAccessPolicyRegistry.default_allow R)) /\
     (forall l', l' <> l ->
        registries (snd (register media_policy policy_registry σ)) !! l'
        = registries σ !! l') /\
     default_wrapped (snd (register media_policy policy_registry σ))
     = default_wrapped σ /\
     caller (snd (register media_policy policy_registry σ)) = caller σ) /\
  (forall p l σ1 R,
     media_policy = PyPolicy p ->
     target_registry policy_registry = PyLazyRegistry ->
     wrapped σ = (Ok l, σ1) ->
     registries σ1 !! l = Some R ->
     fst (register media_policy policy_registry σ) = Ok tt /\
     default_wrapped (snd (register media_policy policy_registry σ)) = Some l /\
     registries (snd (register media_policy policy_registry σ)) !! l
     = Some (MediaAccessPolicyRegistry.init
               (MediaAccessPolicyRegistry.policies R ++ [p])
               (MediaAccessPolicyRegistry.default_allow R)) /\
     (forall l', l' <> l ->
        registries (snd (register media_policy policy_registry σ)) !! l'
        = registries σ !! l') /\
     caller (snd (register media_policy policy_registry σ)) = caller σ).
Proof.
  destruct (register_run media_policy policy_registry σ)
    as (Hfail & Hgiven & Hdefault).
  split; [exact Hfail|]. split.
  - intros p l R Hp Hr Hl. rewrite (Hgiven p l R Hp Hr Hl). simpl.
    split; [reflexivity|]. split; [apply lookup_insert_eq|].
    split; [|split; reflexivity].
    intros l' Hne. apply lookup_insert_ne. congruence.
  - intros p l σ1 R Hp Ht Hw Hl. rewrite (Hdefault p l σ1 R Hp Ht Hw Hl).
    simpl. split; [reflexivity|].
    destruct (wrapped_cases σ) as [(l0 & Hd & Hw')|[Hd Hw']];
      rewrite Hw' in Hw; injection Hw as <- <-.
    + split; [exact Hd|]. split; [apply lookup_insert_eq|].
      split; [|reflexivity].
      intros l' Hne. apply lookup_insert_ne. congruence.
    + split; [reflexivity|]. split; [apply lookup_insert_eq|].
      split; [|reflexivity].
      intros l' Hne. simpl.
      rewrite lookup_insert_ne by congruence.
      apply lookup_insert_ne. congruence.
Qed.

End RegisterClaims.

(** ** The claims on the objects of tests.py and of the example project *)

Import Examples.

(** C2 at [auth_policy] and [profiles/me.png], in both forms. *)
Lemma text_prefixes_match_text_and_bytes_witness :
  In (Str (str_of "profiles/")) (MediaAccessPolicy.restricted_prefixes auth_policy) /\
  text_prefixes (MediaAccessPolicy.restricted_prefixes auth_policy) = true /\
  encodable_prefixes (MediaAccessPolicy.restricted_prefixes auth_policy) = true /\
  str_encode (str_of "profiles/" ++ str_of "me.png")
  = Ok (bytes_of "profiles/me.png") /\
  MediaAccessPolicy.matches auth_policy (Str (str_of "profiles/me.png")) = Ok true /\
  MediaAccessPolicy.matches auth_policy (Bytes (bytes_of "profiles/me.png"))
  = Ok true.
Proof.
  assert (In (Str (str_of "profiles/"))
            (MediaAccessPolicy.restricted_prefixes auth_policy)) as Hin.
  { right. left. reflexivity. }
  destruct (text_prefixes_match_text_and_bytes auth_policy
              (str_of "profiles/") (str_of "me.png")
              (bytes_of "profiles/me.png") Hin) as (Htext & Hbytes & _).
  split; [exact Hin|]. do 3 (split; [reflexivity|]).
  split; [exact (Htext eq_refl) | exact (Hbytes eq_refl eq_refl)].
Defined.

(** C2 as stated fails: a policy given the prefix [b"images/"] does not
    match the text path ["images/a.jpg"] (nor the byte path), it raises; and
    text prefixes one of which is a lone surrogate raise on a byte path whose
    decoded form starts with another of them. *)
Lemma bytes_prefixes_do_not_match_text :
  MediaAccessPolicy.restricted_prefixes bytes_policy
  = [Bytes (bytes_of "images/")] /\
  MediaAccessPolicy.matches bytes_policy (Str (str_of "images/a.jpg"))
  = Raise TypeError /\
  MediaAccessPolicy.matches bytes_policy (Bytes (bytes_of "images/a.jpg"))
  = Raise AttributeError /\
  text_prefixes (MediaAccessPolicy.restricted_prefixes surrogate_policy) = true /\
  In (Str (str_of "images/"))
    (MediaAccessPolicy.restricted_prefixes surrogate_policy) /\
  str_encode (str_of "images/" ++ str_of "a.jpg")
  = Ok (bytes_of "images/a.jpg") /\
  MediaAccessPolicy.matches surrogate_policy (Bytes (bytes_of "images/a.jpg"))
  = Raise UnicodeEncodeError.
Proof.
  repeat split; try reflexivity. right. left. reflexivity.
Qed.

(** C3 on two overlapping policies: the one registered first wins. *)
Lemma get_policy_for_path_first_match_witness :
  MediaAccessPolicy.matches deny_images (Str (str_of "images/x.png")) = Ok true /\
  MediaAccessPolicy.matches auth_policy (Str (str_of "images/x.png")) = Ok true /\
  MediaAccessPolicyRegistry.get_policy_for_path
    (MediaAccessPolicyRegistry.init [deny_images; auth_policy] (VBool true))
    (Str (str_of "images/x.png")) = Ok (Some deny_images) /\
  MediaAccessPolicyRegistry.get_policy_for_path
    (MediaAccessPolicyRegistry.init [deny_images; auth_policy] (VBool true))
    (Str (str_of "profiles/x.png")) = Ok (Some auth_policy) /\
  MediaAccessPolicyRegistry.get_policy_for_path
    (MediaAccessPolicyRegistry.init [deny_images; auth_policy] (VBool true))
    (Str (str_of "general/x.png")) = Ok None.
Proof.
  split; [reflexivity|]. split; [reflexivity|]. split; [|split].
  - apply (proj2 (proj2 (get_policy_for_path_first_match
             (MediaAccessPolicyRegistry.init [deny_images; auth_policy]
                (VBool true))
             (Str (str_of "images/x.png")))) deny_images auth_policy []);
      reflexivity.
  - apply (proj1 (get_policy_for_path_first_match
             (MediaAccessPolicyRegistry.init [deny_images; auth_policy]
                (VBool true))
             (Str (str_of "profiles/x.png")))).
    exists [deny_images], []. split; [reflexivity|]. split; [|reflexivity].
    constructor; [reflexivity | constructor].
  - apply (proj1 (proj2 (get_policy_for_path_first_match
             (MediaAccessPolicyRegistry.init [deny_images; auth_policy]
                (VBool true))
             (Str (str_of "general/x.png"))))).
    constructor; [reflexivity|]. constructor; [reflexivity | constructor].
Defined.

(** C4 on the scenario of the specification: [images/] is decided by the
    policy, [general/] by [default_allow]. *)
Lemma registry_is_allowed_decision_witness :
  no_match [auth_policy] (Str (str_of "general/x.png")) /\
  MediaAccessPolicyRegistry.is_allowed
    (MediaAccessPolicyRegistry.init [auth_policy] (VBool true))
    anonymous (Str (str_of "general/x.png")) 0%nat = (Ok (VBool true), 0%nat) /\
  MediaAccessPolicy.matches auth_policy (Str (str_of "images/x.png")) = Ok true /\
  MediaAccessPolicyRegistry.is_allowed
    (MediaAccessPolicyRegistry.init [auth_policy] (VBool true))
    anonymous (Str (str_of "images/x.png")) 0%nat
  = MediaAccessPolicy.is_allowed auth_policy anonymous
      (Str (str_of "images/x.png")) 0%nat.
Proof.
  assert (no_match [auth_policy] (Str (str_of "general/x.png"))) as Hn.
  { constructor; [reflexivity | constructor]. }
  split; [exact Hn|]. split; [|split; [reflexivity|]].
  - apply (proj1 (registry_is_allowed_decision
             (MediaAccessPolicyRegistry.init [auth_policy] (VBool true))
             anonymous (Str (str_of "general/x.png")) 0%nat) Hn).
  - apply (proj2 (registry_is_allowed_decision
             (MediaAccessPolicyRegistry.init [auth_policy] (VBool true))
             anonymous (Str (str_of "images/x.png")) 0%nat) [] auth_policy []).
    + reflexivity.
    + constructor.
    + reflexivity.
Defined.

(** C7: registering [auth_policy] after the policy of tests.py. *)
Lemma register_append_only_witness :
  MediaAccessPolicyRegistry.get_policy_for_path registry
    (Str (str_of "images/a.jpg")) = Ok (Some policy) /\
  MediaAccessPolicyRegistry.get_policy_for_path
    (MediaAccessPolicyRegistry.register registry auth_policy)
    (Str (str_of "images/a.jpg")) = Ok (Some policy) /\
  no_match (MediaAccessPolicyRegistry.policies registry)
    (Str (str_of "profiles/a.jpg")) /\
  MediaAccessPolicy.matches auth_policy (Str (str_of "profiles/a.jpg"))
  = Ok true /\
  MediaAccessPolicyRegistry.get_policy_for_path
    (MediaAccessPolicyRegistry.register registry auth_policy)
    (Str (str_of "profiles/a.jpg")) = Ok (Some auth_policy).
Proof.
  assert (no_match (MediaAccessPolicyRegistry.policies registry)
            (Str (str_of "profiles/a.jpg"))) as Hn.
  { constructor; [reflexivity | constructor]. }
  split; [reflexivity|]. split; [|split; [exact Hn|split; [reflexivity|]]].
  - apply (proj1 (proj2 (proj2 (register_append_only registry auth_policy
             (Str (str_of "images/a.jpg"))))) policy).
    reflexivity.
  - apply (proj2 (proj2 (proj2 (register_append_only registry auth_policy
             (Str (str_of "profiles/a.jpg"))))) Hn).
    reflexivity.
Defined.

(** C10 as stated fails: the empty prefix after a lone surrogate. The
    prefixes are text and hold the empty string, yet [matches] raises on a
    byte path. *)
Lemma empty_prefix_after_surrogate_raises :
  text_prefixes (MediaAccessPolicy.restricted_prefixes surrogate_catch_all)
  = true /\
  In (Str []) (MediaAccessPolicy.restricted_prefixes surrogate_catch_all) /\
  MediaAccessPolicy.matches surrogate_catch_all (Bytes [])
  = Raise UnicodeEncodeError /\
  MediaAccessPolicy.matches surrogate_catch_all (Bytes (bytes_of "images/a.jpg"))
  = Raise UnicodeEncodeError.
Proof.
  repeat split; try reflexivity. right. left. reflexivity.
Qed.

(** C10, as amended, at the policy whose only prefix is the empty string,
    registered after the policy of tests.py. *)
Lemma empty_prefix_matches_every_path_witness :
  In (Str []) (MediaAccessPolicy.restricted_prefixes catch_all) /\
  text_prefixes (MediaAccessPolicy.restricted_prefixes catch_all) = true /\
  encodable_prefixes (MediaAccessPolicy.restricted_prefixes catch_all) = true /\
  MediaAccessPolicy.matches catch_all (Str []) = Ok true /\
  MediaAccessPolicy.matches catch_all (Bytes (bytes_of "general/x.png"))
  = Ok true /\
  MediaAccessPolicyRegistry.get_policy_for_path
    (MediaAccessPolicyRegistry.init ([policy] ++ catch_all :: [auth_policy])
       (VBool true))
    (Str (str_of "profiles/x.png")) = Ok (Some catch_all).
Proof.
  assert (In (Str []) (MediaAccessPolicy.restricted_prefixes catch_all)) as Hin.
  { left. reflexivity. }
  destruct (empty_prefix_matches_every_path catch_all Hin eq_refl)
    as (Hstr & Hbytes & Hreg).
  split; [exact Hin|]. split; [reflexivity|]. split; [reflexivity|].
  split; [apply Hstr|]. split; [apply (Hbytes eq_refl)|].
  rewrite (Hreg (Str (str_of "profiles/x.png")) [policy] [auth_policy]
             (VBool true) (Hstr _)).
  reflexivity.
Defined.

(** C1 on the gate of tests.py: the denial test of the specification (the
    view's call counter stays at 0) and [test_authenticated_access] (the view
    runs once and its response comes back). *)
Lemma gate_forwards_or_hides_witness :
  effective_registry (Some 0%nat) world_deny = (Ok 0%nat, world_deny) /\
  registries world_deny !! 0%nat
  = Some (MediaAccessPolicyRegistry.init [deny_images] (VBool true)) /\
  MediaAccessPolicyRegistry.is_allowed
    (MediaAccessPolicyRegistry.init [deny_images] (VBool true))
    anonymous (Str (str_of "images/a.jpg")) 0%nat = (Ok (VBool false), 0%nat) /\
  check_path (Some 0%nat) ok_view anonymous (Str (str_of "images/a.jpg")) tt
    world_deny
  = (Raise (Http404 "Restricted media file"), world_deny) /\
  check_path (Some 0%nat) ok_view authenticated (Str (str_of "images/a.jpg")) tt
    world0
  = (Ok {| status_code := 200; content := "OK" |}, with_caller world0 1%nat).
Proof.
  do 3 (split; [reflexivity|]). split.
  - exact (gate_forwards_or_hides (Some 0%nat) ok_view anonymous
             (Str (str_of "images/a.jpg")) tt world_deny 0%nat world_deny
             (MediaAccessPolicyRegistry.init [deny_images] (VBool true))
             false 0%nat eq_refl eq_refl eq_refl).
  - exact (gate_forwards_or_hides (Some 0%nat) ok_view authenticated
             (Str (str_of "images/a.jpg")) tt world0 0%nat world0
             registry true 0%nat eq_refl eq_refl eq_refl).
Defined.

(** C6 on a policy whose predicate raises. *)
Lemma predicate_failure_propagates_witness :
  MediaAccessPolicyRegistry.get_policy_for_path
    (MediaAccessPolicyRegistry.init [failing_images] (VBool true))
    (Str (str_of "images/a.jpg")) = Ok (Some failing_images) /\
  MediaAccessPolicy.access_check failing_images anonymous
    (Str (str_of "images/a.jpg")) 0%nat
  = (Raise (OtherException "RuntimeError" "database is down"), 0%nat) /\
  MediaAccessPolicyRegistry.is_allowed
    (MediaAccessPolicyRegistry.init [failing_images] (VBool true))
    anonymous (Str (str_of "images/a.jpg")) 0%nat
  = (Raise (OtherException "RuntimeError" "database is down"), 0%nat) /\
  check_path (Some 0%nat) ok_view anonymous (Str (str_of "images/a.jpg")) tt
    world_failing
  = (Raise (OtherException "RuntimeError" "database is down"), world_failing).
Proof.
  destruct (@predicate_failure_propagates Request HttpResponse unit Calls
              (MediaAccessPolicyRegistry.init [failing_images] (VBool true))
              failing_images anonymous (Str (str_of "images/a.jpg"))
              (OtherException "RuntimeError" "database is down") 0%nat 0%nat
              eq_refl eq_refl) as [Hreg Hgate].
  do 2 (split; [reflexivity|]). split; [exact Hreg|].
  exact (Hgate (Some 0%nat) ok_view tt world_failing 0%nat world_failing
           eq_refl eq_refl eq_refl).
Defined.

(** C5 in the world of tests.py: an object that is not a policy and an
    object that is not a registry are refused; a policy goes to the registry
    given, which then holds the policy of tests.py and the new one, and to the
    default registry (built on the spot) when none is, the registry of
    tests.py staying as it was. *)
Lemma register_checks_then_appends_witness :
  (exists msg σ',
     register (PyOther true) (PyRegistry 0%nat) world0
     = (Raise (ValueError msg), σ') /\
     (σ' = world0 \/ default_wrapped world0 = None /\ σ' = _setup world0) /\
     (forall l R, registries world0 !! l = Some R ->
                  registries σ' !! l = Some R)) /\
  (exists msg σ',
     register (PyPolicy auth_policy) (PyOther true) world0
     = (Raise (ValueError msg), σ') /\
     (σ' = world0 \/ default_wrapped world0 = None /\ σ' = _setup world0) /\
     (forall l R, registries world0 !! l = Some R ->
                  registries σ' !! l = Some R)) /\
  (fst (register (PyPolicy auth_policy) (PyRegistry 0%nat) world0) = Ok tt /\
   registries (snd (register (PyPolicy auth_policy) (PyRegistry 0%nat) world0))
     !! 0%nat
   = Some (MediaAccessPolicyRegistry.init [policy; auth_policy] (VBool false))
   /\
   (forall l', l' <> 0%nat ->
      registries
        (snd (register (PyPolicy auth_policy) (PyRegistry 0%nat) world0)) !! l'
      = registries world0 !! l') /\
   default_wrapped
     (snd (register (PyPolicy auth_policy) (PyRegistry 0%nat) world0))
   = default_wrapped world0 /\
   caller (snd (register (PyPolicy auth_policy) (PyRegistry 0%nat) world0))
   = caller world0) /\
  (fst (register (PyPolicy auth_policy) PyNone world0) = Ok tt /\
   default_wrapped (snd (register (PyPolicy auth_policy) PyNone world0))
   = Some (fresh_ref world0) /\
   registries (snd (register (PyPolicy auth_policy) PyNone world0))
     !! fresh_ref world0
   = Some (MediaAccessPolicyRegistry.init [auth_policy] (VBool true)) /\
   (forall l', l' <> fresh_ref world0 ->
      registries (snd (register (PyPolicy auth_policy) PyNone world0)) !! l'
      = registries world0 !! l') /\
   caller (snd (register (PyPolicy auth_policy) PyNone world0))
   = caller world0).
Proof.
  split; [|split; [|split]].
  - apply (proj1 (register_checks_then_appends (PyOther true)
                    (PyRegistry 0%nat) world0)).
    left. reflexivity.
  - apply (proj1 (register_checks_then_appends (PyPolicy auth_policy)
                    (PyOther true) world0)).
    right. reflexivity.
  - apply (proj1 (proj2 (register_checks_then_appends (PyPolicy auth_policy)
                           (PyRegistry 0%nat) world0))
             auth_policy 0%nat registry eq_refl eq_refl eq_refl).
  - apply (proj2 (proj2 (register_checks_then_appends (PyPolicy auth_policy)
                           PyNone world0))
             auth_policy (fresh_ref world0) (_setup world0)
             (MediaAccessPolicyRegistry.init [] (VBool true))
             eq_refl eq_refl eq_refl).
    vm_compute. reflexivity.
Defined.

(** C9 on a policy with two text prefixes. *)
Lemma prefix_match_is_literal_witness :
  text_prefixes [Str (str_of "profiles/"); Str (str_of "images")] = true /\
  In (Str (str_of "images")) [Str (str_of "profiles/"); Str (str_of "images")] /\
  MediaAccessPolicy.matches
    (MediaAccessPolicy.init [Str (str_of "profiles/"); Str (str_of "images")]
       auth_check)
    (Str (str_of "images" ++ str_of "ecret/x")) = Ok true.
Proof.
  assert (In (Str (str_of "images"))
            [Str (str_of "profiles/"); Str (str_of "images")]) as Hin.
  { right. left. reflexivity. }
  split; [reflexivity|]. split; [exact Hin|].
  exact (proj2 (proj2 (proj2 (prefix_match_is_literal auth_check)))
           (MediaAccessPolicy.init
              [Str (str_of "profiles/"); Str (str_of "images")] auth_check)
           (str_of "ecret/x") eq_refl Hin).
Defined.

(** * Further properties of the code *)

(** ** UTF-8: the encodings of two code points do not start alike *)

Lemma all_below_spec (f : Z -> bool) (n : nat) :
  all_below f n = true -> forall x, 0 <= x < Z.of_nat n -> f x = true.
Proof.
  induction n as [|k IH]; simpl; intros H x Hx; [lia|].
  apply andb_true_iff in H as [Hk H].
  destruct (Z.eq_dec x (Z.of_nat k)) as [->|Hne]; [assumption|].
  apply IH; [assumption | lia].
Qed.

Lemma lor_high (h : Z) (n : nat) :
  all_below (fun x => Z.lor h x =? h + x) n = true ->
  forall x, 0 <= x < Z.of_nat n -> Z.lor h x = h + x.
Proof.
  intros H x Hx. apply Z.eqb_eq. exact (all_below_spec _ _ H x Hx).
Qed.

Lemma lor_C0 x : 0 <= x < 32 -> Z.lor 0xC0 x = 0xC0 + x.
Proof. apply (lor_high 0xC0 32). reflexivity. Qed.

Lemma lor_E0 x : 0 <= x < 16 -> Z.lor 0xE0 x = 0xE0 + x.
Proof. apply (lor_high 0xE0 16). reflexivity. Qed.

Lemma lor_F0 x : 0 <= x < 8 -> Z.lor 0xF0 x = 0xF0 + x.
Proof. apply (lor_high 0xF0 8). reflexivity. Qed.

Lemma lor_80 x : 0 <= x < 64 -> Z.lor 0x80 x = 0x80 + x.
Proof. apply (lor_high 0x80 64). reflexivity. Qed.

Lemma land_3F x : Z.land x 0x3F = x mod 64.
Proof. change 0x3F with (Z.ones 6). rewrite Z.land_ones by lia. reflexivity. Qed.

Lemma shiftr_6 x : Z.shiftr x 6 = x / 64.
Proof. rewrite Z.shiftr_div_pow2 by lia. reflexivity. Qed.

Lemma shiftr_12 x : Z.shiftr x 12 = x / 4096.
Proof. rewrite Z.shiftr_div_pow2 by lia. reflexivity. Qed.

Lemma shiftr_18 x : Z.shiftr x 18 = x / 262144.
Proof. rewrite Z.shiftr_div_pow2 by lia. reflexivity. Qed.

Lemma byte_val_of_Z (z : Z) : 0 <= z < 256 -> byte_val (byte_of_Z z) = z.
Proof.
  intros Hz. unfold byte_val, byte_of_Z.
  destruct (Byte.of_N (Z.to_N z)) as [b|] eqn:E.
  - rewrite (Byte.to_of_N _ E). lia.
  - apply Byte.of_N_None_iff in E. lia.
Qed.

Ltac divmod_lia := Z.to_euclidean_division_equations; lia.

(** The first code point read back from an encoding is the one encoded. *)
Lemma utf8_head_encode (c : Z) (ec rest : pybytes) :
  0 <= c <= 0x10FFFF ->
  utf8_encode_char c = Some ec ->
  utf8_head (ec ++ rest) = Some c.
Proof.
  intros Hc. unfold utf8_encode_char.
  destruct (Z.ltb_spec c 0x80) as [E1|E1].
  - intros [= <-]. cbn [app utf8_head]. rewrite byte_val_of_Z by lia.
    destruct (Z.ltb_spec c 0x80); [reflexivity | lia].
  - destruct (Z.ltb_spec c 0x800) as [E2|E2].
    + intros [= <-]. cbn [app utf8_head].
      rewrite land_3F, shiftr_6.
      rewrite lor_C0, lor_80 by divmod_lia.
      rewrite !byte_val_of_Z by divmod_lia.
      destruct (Z.ltb_spec (192 + c / 64) 0x80); [divmod_lia|].
      destruct (Z.ltb_spec (192 + c / 64) 0xE0); [|divmod_lia].
      f_equal. divmod_lia.
    + destruct (is_surrogate c); [discriminate|].
      destruct (Z.ltb_spec c 0x10000) as [E3|E3].
      * intros [= <-]. cbn [app utf8_head].
        rewrite !land_3F, shiftr_6, shiftr_12.
        rewrite lor_E0, !lor_80 by divmod_lia.
        rewrite !byte_val_of_Z by divmod_lia.
        destruct (Z.ltb_spec (224 + c / 4096) 0x80); [divmod_lia|].
        destruct (Z.ltb_spec (224 + c / 4096) 0xE0); [divmod_lia|].
        destruct (Z.ltb_spec (224 + c / 4096) 0xF0); [|divmod_lia].
        f_equal. divmod_lia.
      * intros [= <-]. cbn [app utf8_head].
        rewrite !land_3F, shiftr_6, shiftr_12, shiftr_18.
        rewrite lor_F0, !lor_80 by divmod_lia.
        rewrite !byte_val_of_Z by divmod_lia.
        destruct (Z.ltb_spec (240 + c / 262144) 0x80); [divmod_lia|].
        destruct (Z.ltb_spec (240 + c / 262144) 0xE0); [divmod_lia|].
        destruct (Z.ltb_spec (240 + c / 262144) 0xF0); [divmod_lia|].
        f_equal. divmod_lia.
Qed.

Lemma utf8_encode_char_nonempty (c : Z) (ec : pybytes) :
  utf8_encode_char c = Some ec -> ec <> [].
Proof.
  unfold utf8_encode_char.
  destruct (c <? 0x80); [intros [= <-]; discriminate|].
  destruct (c <? 0x800); [intros [= <-]; discriminate|].
  destruct (is_surrogate c); [discriminate|].
  destruct (c <? 0x10000); intros [= <-]; discriminate.
Qed.

(** Two byte sequences that start with the encodings of [c] and of [d] and
    are equal: then [c] is [d]. *)
Lemma utf8_encode_char_same_start (c d : Z) (ec ed x y : pybytes) :
  valid_codepoint c = true -> valid_codepoint d = true ->
  utf8_encode_char c = Some ec -> utf8_encode_char d = Some ed ->
  ec ++ x = ed ++ y -> c = d.
Proof.
  unfold valid_codepoint. intros Hc Hd Ec Ed Heq.
  apply andb_true_iff in Hc as [Hc0 Hc1]. apply andb_true_iff in Hd as [Hd0 Hd1].
  assert (utf8_head (ec ++ x) = Some c) as H1
    by (apply utf8_head_encode; [lia | assumption]).
  assert (utf8_head (ed ++ y) = Some d) as H2
    by (apply utf8_head_encode; [lia | assumption]).
  rewrite Heq in H1. congruence.
Qed.

Lemma starts_with_cancel {A} (eqb : A -> A -> bool) (a s p : list A) :
  (forall x, eqb x x = true) ->
  starts_with eqb (a ++ s) (a ++ p) = starts_with eqb s p.
Proof.
  intros Hrefl. induction a as [|x a IH]; simpl; [reflexivity|].
  rewrite Hrefl. exact IH.
Qed.

Lemma starts_with_Z_iff (s p : pystr) :
  starts_with Z.eqb s p = true <-> exists rest, s = p ++ rest.
Proof.
  split.
  - apply starts_with_inv. intros x y. apply Z.eqb_eq.
  - intros [rest ->]. apply starts_with_app, Z.eqb_refl.
Qed.

Lemma starts_with_byte_iff (s p : pybytes) :
  starts_with Byte.eqb s p = true <-> exists rest, s = p ++ rest.
Proof.
  split.
  - apply starts_with_inv. apply byte_dec_bl.
  - intros [rest ->]. apply starts_with_app, byte_eqb_refl.
Qed.

(** On texts, [startswith] gives the same answer before and after
    encoding. *)
Lemma str_encode_starts_with (p s : pystr) (bp bs : pybytes) :
  valid_str p = true -> valid_str s = true ->
  str_encode p = Ok bp -> str_encode s = Ok bs ->
  starts_with Byte.eqb bs bp = starts_with Z.eqb s p.
Proof.
  revert s bp bs. induction p as [|c p IH]; intros s bp bs Hp Hs Ep Es.
  - simpl in Ep. injection Ep as <-. reflexivity.
  - simpl in Hp. apply andb_true_iff in Hp as [Hc Hp].
    simpl in Ep. destruct (utf8_encode_char c) as [ec|] eqn:Ec; [|discriminate].
    destruct (str_encode p) as [bp'|] eqn:Ep'; simpl in Ep; [|discriminate].
    injection Ep as <-.
    destruct s as [|d s].
    + simpl in Es. injection Es as <-.
      destruct ec as [|e0 ec]; [|reflexivity].
      exfalso. exact (utf8_encode_char_nonempty _ _ Ec eq_refl).
    + simpl in Hs. apply andb_true_iff in Hs as [Hd Hs].
      simpl in Es.
      destruct (utf8_encode_char d) as [ed|] eqn:Ed; [|discriminate].
      destruct (str_encode s) as [bs'|] eqn:Es'; simpl in Es; [|discriminate].
      injection Es as <-.
      change (starts_with Z.eqb (d :: s) (c :: p))
        with ((d =? c) && starts_with Z.eqb s p).
      destruct (Z.eqb_spec d c) as [->|Hne].
      * assert (ed = ec) as -> by congruence.
        rewrite starts_with_cancel by apply byte_eqb_refl.
        simpl. apply IH; auto.
      * simpl. destruct (starts_with Byte.eqb (ed ++ bs') (ec ++ bp')) eqn:E;
          [|reflexivity].
        apply starts_with_byte_iff in E as [rest E].
        rewrite <- app_assoc in E. exfalso. apply Hne.
        exact (utf8_encode_char_same_start d c ed ec _ _ Hd Hc Ed Ec E).
Qed.

Lemma str_encode_raise (s : pystr) (e : exn) :
  str_encode s = Raise e -> e = UnicodeEncodeError.
Proof.
  induction s as [|c s IH]; simpl; [discriminate|].
  destruct (utf8_encode_char c); [|congruence].
  destruct (str_encode s); simpl; [discriminate|].
  intros [= <-]. apply IH. reflexivity.
Qed.

(** The tuple built for a byte path holds the encodings of the prefixes and
    nothing else. *)
Lemma encode_all_members (prefixes : list str_or_bytes) :
  encodable_prefixes prefixes = true ->
  exists bs, encode_all prefixes = Ok bs /\
    forall bp, In bp bs <->
      exists p, In (Str p) prefixes /\ str_encode p = Ok bp.
Proof.
  induction prefixes as [|q prefixes IH]; simpl.
  - intros _. exists []. split; [reflexivity|].
    intros bp. split; [intros [] | intros (p & [] & _)].
  - intros H. apply andb_true_iff in H as [Hq Hrest].
    destruct (IH Hrest) as (bs & Hbs & Hin).
    destruct q as [s|b]; simpl in Hq; [|discriminate].
    apply str_encode_encodable in Hq as [bq Hbq].
    exists (bq :: bs). simpl. rewrite Hbq, Hbs. simpl. split; [reflexivity|].
    intros bp. split.
    + intros [<-|Hbp].
      * exists s. split; [left; reflexivity | assumption].
      * apply Hin in Hbp as (p & Hp & Ep). exists p. split; [right|]; assumption.
    + intros (p & [Hp|Hp] & Ep).
      * injection Hp as ->. left. congruence.
      * right. apply Hin. eauto.
Qed.

(** When it does not run into bytes, [str.startswith] on a tuple says
    whether one of the texts is a prefix. *)
Lemma str_startswith_true_iff (s : pystr) (prefixes : list str_or_bytes) :
  text_prefixes prefixes = true ->
  (str_startswith s prefixes = Ok true <->
   exists p, In (Str p) prefixes /\ starts_with Z.eqb s p = true).
Proof.
  induction prefixes as [|[q|q] prefixes IH]; simpl.
  - intros _. split; [discriminate | intros (p & [] & _)].
  - intros Ht. destruct (starts_with Z.eqb s q) eqn:E.
    + split; [|reflexivity]. intros _. exists q. split; [left; reflexivity | assumption].
    + rewrite (IH Ht). split.
      * intros (p & Hp & Hs). exists p. split; [right|]; assumption.
      * intros (p & [Hp|Hp] & Hs); [|eauto].
        injection Hp as ->. congruence.
  - discriminate.
Qed.

Lemma encode_all_raise (prefixes : list str_or_bytes) :
  encodable_prefixes prefixes = false ->
  encode_all prefixes = Raise AttributeError \/
  encode_all prefixes = Raise UnicodeEncodeError.
Proof.
  induction prefixes as [|q prefixes IH]; simpl; [discriminate|].
  destruct q as [s|b]; simpl; [|left; reflexivity].
  destruct (str_encode s) as [bq|e] eqn:E; simpl.
  - assert (encodable s = true) as -> by (apply str_encode_encodable; eauto).
    simpl. intros H. destruct (IH H) as [-> | ->]; [left | right]; reflexivity.
  - intros _. right. rewrite (str_encode_raise _ _ E). reflexivity.
Qed.

(** ** [MediaAccessPolicy.matches], further *)

Section MatchesFurther.
Context {Request W : Type}.
Implicit Types (P : MediaAccessPolicy.t Request W).

(** X1: with text prefixes, [matches] never raises on a text path (lone
    surrogates or not: nothing is encoded), and it returns [True] exactly when
    the path is one of the prefixes followed by anything. The path is compared
    as it comes, without normalisation. *)
Theorem matches_text_path_iff P (s : pystr) :
  text_prefixes (MediaAccessPolicy.restricted_prefixes P) = true ->
  exists m, MediaAccessPolicy.matches P (Str s) = Ok m /\
    (m = true <->
     exists p rest,
       In (Str p) (MediaAccessPolicy.restricted_prefixes P) /\ s = p ++ rest).
Proof.
  intros Ht. unfold MediaAccessPolicy.matches. simpl.
  destruct (str_startswith_total s _ Ht) as [m Hm]. exists m.
  split; [exact Hm|].
  pose proof (str_startswith_true_iff s _ Ht) as Hiff. rewrite Hm in Hiff.
  split.
  - intros ->. destruct (proj1 Hiff eq_refl) as (p & Hin & Hs).
    apply starts_with_Z_iff in Hs as [rest ->]. eauto.
  - intros (p & rest & Hin & ->).
    assert (Ok m = Ok true) as [= ->]; [|reflexivity].
    apply Hiff. exists p. split; [assumption|].
    apply starts_with_Z_iff. eauto.
Qed.

(** X2: with text prefixes that can all be encoded, [matches] never raises
    on a byte path, and it returns [True] exactly when the path is the UTF-8
    encoding of one of the prefixes followed by any bytes. *)
Theorem matches_byte_path_iff P (b : pybytes) :
  encodable_prefixes (MediaAccessPolicy.restricted_prefixes P) = true ->
  exists m, MediaAccessPolicy.matches P (Bytes b) = Ok m /\
    (m = true <->
     exists p bp rest,
       In (Str p) (MediaAccessPolicy.restricted_prefixes P) /\
       str_encode p = Ok bp /\ b = bp ++ rest).
Proof.
  intros He. unfold MediaAccessPolicy.matches. simpl.
  destruct (encode_all_members _ He) as (bs & -> & Hbs). simpl.
  exists (bytes_startswith b bs). split; [reflexivity|].
  unfold bytes_startswith. rewrite existsb_exists. split.
  - intros (bp & Hin & Hs). apply Hbs in Hin as (p & Hp & Ep).
    apply starts_with_byte_iff in Hs as [rest ->]. eauto 6.
  - intros (p & bp & rest & Hp & Ep & ->). exists bp. split.
    + apply Hbs. eauto.
    + apply starts_with_byte_iff. eauto.
Qed.

(** X3: a text path and its UTF-8 form get the same answer from a policy
    whose prefixes are text that can be encoded. *)
Theorem matches_same_on_text_and_bytes P (s : pystr) (b : pybytes) :
  valid_prefixes (MediaAccessPolicy.restricted_prefixes P) = true ->
  encodable_prefixes (MediaAccessPolicy.restricted_prefixes P) = true ->
  valid_str s = true ->
  str_encode s = Ok b ->
  MediaAccessPolicy.matches P (Bytes b) = MediaAccessPolicy.matches P (Str s).
Proof.
  intros Hv He Hs Eb. unfold MediaAccessPolicy.matches. simpl.
  destruct (encode_all_members _ He) as (bs & -> & Hbs). simpl.
  pose proof (encodable_text _ He) as Ht.
  destruct (str_startswith_total s _ Ht) as [m Hm]. rewrite Hm. f_equal.
  pose proof (str_startswith_true_iff s _ Ht) as Hiff. rewrite Hm in Hiff.
  assert (forall p bp, In (Str p) (MediaAccessPolicy.restricted_prefixes P) ->
            str_encode p = Ok bp ->
            starts_with Byte.eqb b bp = starts_with Z.eqb s p) as Hsame.
  { intros p bp Hp Ep. apply str_encode_starts_with; try assumption.
    unfold valid_prefixes in Hv. rewrite forallb_forall in Hv.
    exact (Hv _ Hp). }
  destruct m.
  - destruct (proj1 Hiff eq_refl) as (p & Hp & Hsp).
    unfold encodable_prefixes in He. rewrite forallb_forall in He.
    destruct (proj1 (str_encode_encodable p) (He _ Hp)) as [bp Ep].
    apply bytes_startswith_In with bp.
    + apply Hbs. eauto.
    + rewrite (Hsame p bp Hp Ep). exact Hsp.
  - destruct (bytes_startswith b bs) eqn:E; [|reflexivity].
    unfold bytes_startswith in E. apply existsb_exists in E as (bp & Hin & Hbp).
    apply Hbs in Hin as (p & Hp & Ep).
    rewrite (Hsame p bp Hp Ep) in Hbp.
    assert (Ok false = Ok true) as [=]. apply Hiff. eauto.
Qed.

(** X4: on a byte path every prefix is encoded before anything is compared:
    one prefix that is [bytes] or holds a lone surrogate, wherever it stands,
    makes [matches] raise on every byte path, with [AttributeError] or with
    [UnicodeEncodeError]. *)
Theorem matches_byte_path_raises P :
  encodable_prefixes (MediaAccessPolicy.restricted_prefixes P) = false ->
  (forall b, MediaAccessPolicy.matches P (Bytes b) = Raise AttributeError) \/
  (forall b, MediaAccessPolicy.matches P (Bytes b) = Raise UnicodeEncodeError).
Proof.
  intros He. unfold MediaAccessPolicy.matches. simpl.
  destruct (encode_all_raise _ He) as [-> | ->]; [left | right];
    intros b; reflexivity.
Qed.

(** X5: the order of the prefixes and their repetitions do not count: two
    policies with the same prefixes, as sets, answer alike on every text path
    (text prefixes) and on every byte path (text prefixes that can be
    encoded). *)
Theorem matches_prefix_order_irrelevant P1 P2 :
  (forall q, In q (MediaAccessPolicy.restricted_prefixes P1) <->
             In q (MediaAccessPolicy.restricted_prefixes P2)) ->
  (text_prefixes (MediaAccessPolicy.restricted_prefixes P1) = true ->
   forall s, MediaAccessPolicy.matches P1 (Str s)
             = MediaAccessPolicy.matches P2 (Str s)) /\
  (encodable_prefixes (MediaAccessPolicy.restricted_prefixes P1) = true ->
   forall b, MediaAccessPolicy.matches P1 (Bytes b)
             = MediaAccessPolicy.matches P2 (Bytes b)).
Proof.
  intros Hsame.
  assert (forall f : str_or_bytes -> bool,
            forallb f (MediaAccessPolicy.restricted_prefixes P1) = true ->
            forallb f (MediaAccessPolicy.restricted_prefixes P2) = true) as Hall.
  { intros f H. rewrite forallb_forall in *. intros q Hq.
    apply H, Hsame, Hq. }
  unfold MediaAccessPolicy.matches. simpl. split.
  - intros Ht1 s. pose proof (Hall _ Ht1) as Ht2.
    destruct (str_startswith_total s _ Ht1) as [m1 H1].
    destruct (str_startswith_total s _ Ht2) as [m2 H2].
    pose proof (str_startswith_true_iff s _ Ht1) as I1.
    pose proof (str_startswith_true_iff s _ Ht2) as I2.
    rewrite H1, H2 in *. f_equal. apply eq_true_iff_eq.
    split; intros ->.
    + assert (Ok m2 = Ok true) as [= ->]; [|reflexivity].
      apply I2. destruct (proj1 I1 eq_refl) as (p & Hin & Hs).
      exists p. split; [apply Hsame, Hin | exact Hs].
    + assert (Ok m1 = Ok true) as [= ->]; [|reflexivity].
      apply I1. destruct (proj1 I2 eq_refl) as (p & Hin & Hs).
      exists p. split; [apply Hsame, Hin | exact Hs].
  - intros He1 b. pose proof (Hall _ He1) as He2.
    destruct (encode_all_members _ He1) as (bs1 & -> & M1).
    destruct (encode_all_members _ He2) as (bs2 & -> & M2).
    simpl. f_equal. apply eq_true_iff_eq. unfold bytes_startswith.
    rewrite !existsb_exists.
    split; intros (bp & Hin & Hs); exists bp; (split; [|exact Hs]).
    + apply M2. apply M1 in Hin as (q & Hq & Eq). exists q.
      split; [apply Hsame, Hq | exact Eq].
    + apply M1. apply M2 in Hin as (q & Hq & Eq). exists q.
      split; [apply Hsame, Hq | exact Eq].
Qed.

End MatchesFurther.

(** ** [MediaAccessPolicyRegistry], further *)

Section RegistryFurther.
Context {Request W : Type}.
Implicit Types (P Q : MediaAccessPolicy.t Request W).
Implicit Types (R : MediaAccessPolicyRegistry.t Request W).
Implicit Types (path : str_or_bytes).

Lemma scan_In (l : list (MediaAccessPolicy.t Request W)) P path :
  MediaAccessPolicyRegistry.scan l path = Ok None -> In P l ->
  MediaAccessPolicy.matches P path = Ok false.
Proof.
  intros Hn Hin. apply scan_no_match in Hn. unfold no_match in Hn.
  rewrite Forall_forall in Hn. apply Hn. apply list_elem_of_In, Hin.
Qed.

Lemma is_allowed_by_scan R R' (request : Request) path (w : W) :
  MediaAccessPolicyRegistry.get_policy_for_path R' path
  = MediaAccessPolicyRegistry.get_policy_for_path R path ->
  MediaAccessPolicyRegistry.default_allow R'
  = MediaAccessPolicyRegistry.default_allow R ->
  MediaAccessPolicyRegistry.is_allowed R' request path w
  = MediaAccessPolicyRegistry.is_allowed R request path w.
Proof.
  intros Hg Hd. unfold MediaAccessPolicyRegistry.is_allowed.
  rewrite Hg, Hd. reflexivity.
Qed.

(** X6: a registry built from a list of policies and then given further
    policies by [register], one by one, is the registry built from both lists
    in a row: the order of the calls is the order of the scan. *)
Theorem register_in_turn_is_init
    (qs ps : list (MediaAccessPolicy.t Request W)) (default_allow : value) :
  fold_left MediaAccessPolicyRegistry.register ps
    (MediaAccessPolicyRegistry.init qs default_allow)
  = MediaAccessPolicyRegistry.init (qs ++ ps) default_allow.
Proof.
  revert qs. induction ps as [|p ps IH]; intros qs; simpl.
  - rewrite app_nil_r. reflexivity.
  - unfold MediaAccessPolicyRegistry.register at 2. simpl.
    rewrite IH, <- app_assoc. reflexivity.
Qed.

(** X7: nothing is deduplicated, and nothing needs to be: registering again
    a policy the registry already holds changes neither the policy a path
    resolves to nor the decision. *)
Theorem register_again_changes_nothing R P (request : Request) path (w : W) :
  In P (MediaAccessPolicyRegistry.policies R) ->
  MediaAccessPolicyRegistry.get_policy_for_path
    (MediaAccessPolicyRegistry.register R P) path
  = MediaAccessPolicyRegistry.get_policy_for_path R path /\
  MediaAccessPolicyRegistry.is_allowed
    (MediaAccessPolicyRegistry.register R P) request path w
  = MediaAccessPolicyRegistry.is_allowed R request path w.
Proof.
  intros Hin.
  assert (MediaAccessPolicyRegistry.get_policy_for_path
            (MediaAccessPolicyRegistry.register R P) path
          = MediaAccessPolicyRegistry.get_policy_for_path R path) as Hg.
  { unfold MediaAccessPolicyRegistry.get_policy_for_path. simpl.
    rewrite scan_app.
    destruct (MediaAccessPolicyRegistry.scan
                (MediaAccessPolicyRegistry.policies R) path)
      as [[Q|]|e] eqn:E; try reflexivity.
    simpl. rewrite (scan_In _ P path E Hin). reflexivity. }
  split; [exact Hg|]. apply is_allowed_by_scan; [exact Hg | reflexivity].
Qed.

(** X8: the order of two registrations counts only for the paths both
    policies match: on a path one of them does not match, registering [P] then
    [Q] and registering [Q] then [P] resolve alike. *)
Theorem register_order_where_it_counts R P Q path :
  MediaAccessPolicy.matches P path = Ok false \/
  MediaAccessPolicy.matches Q path = Ok false ->
  MediaAccessPolicyRegistry.get_policy_for_path
    (MediaAccessPolicyRegistry.register
       (MediaAccessPolicyRegistry.register R P) Q) path
  = MediaAccessPolicyRegistry.get_policy_for_path
      (MediaAccessPolicyRegistry.register
         (MediaAccessPolicyRegistry.register R Q) P) path.
Proof.
  intros H. unfold MediaAccessPolicyRegistry.get_policy_for_path. simpl.
  rewrite <- !app_assoc, !scan_app.
  destruct (MediaAccessPolicyRegistry.scan
              (MediaAccessPolicyRegistry.policies R) path)
    as [[T|]|e]; try reflexivity.
  simpl.
  destruct (MediaAccessPolicy.matches P path) as [[|]|eP];
    destruct (MediaAccessPolicy.matches Q path) as [[|]|eQ];
    simpl; try reflexivity; destruct H; discriminate.
Qed.

(** X9: registering [P] changes the decision only on the paths that [P]
    matches and no earlier policy matched: on a path that already resolved to
    a policy (or already raised), and on a path [P] does not match,
    [is_allowed] is what it was. *)
Theorem register_changes_only_new_paths R P (request : Request) path (w : W) :
  MediaAccessPolicyRegistry.get_policy_for_path R path <> Ok None \/
  MediaAccessPolicy.matches P path = Ok false ->
  MediaAccessPolicyRegistry.is_allowed
    (MediaAccessPolicyRegistry.register R P) request path w
  = MediaAccessPolicyRegistry.is_allowed R request path w.
Proof.
  intros H. apply is_allowed_by_scan; [|reflexivity].
  unfold MediaAccessPolicyRegistry.get_policy_for_path in *. simpl.
  rewrite scan_app.
  destruct (MediaAccessPolicyRegistry.scan
              (MediaAccessPolicyRegistry.policies R) path)
    as [[T|]|e]; try reflexivity.
  destruct H as [H|H]; [congruence|]. simpl. rewrite H. reflexivity.
Qed.

(** X10: a policy is dead on text paths when an earlier policy covers it
    (each of its prefixes starts with a prefix of the earlier one): the
    registry resolves every text path as if the later policy were not
    there. *)
Theorem covered_policy_is_dead
    (l1 l2 l3 : list (MediaAccessPolicy.t Request W)) P1 P2
    (default_allow : value) (s : pystr) :
  text_prefixes (MediaAccessPolicy.restricted_prefixes P1) = true ->
  text_prefixes (MediaAccessPolicy.restricted_prefixes P2) = true ->
  covers P1 P2 ->
  MediaAccessPolicyRegistry.get_policy_for_path
    (MediaAccessPolicyRegistry.init (l1 ++ P1 :: l2 ++ P2 :: l3) default_allow)
    (Str s)
  = MediaAccessPolicyRegistry.get_policy_for_path
      (MediaAccessPolicyRegistry.init (l1 ++ P1 :: l2 ++ l3) default_allow)
      (Str s).
Proof.
  intros Ht1 Ht2 Hcov.
  unfold MediaAccessPolicyRegistry.get_policy_for_path. simpl.
  rewrite !scan_app.
  destruct (MediaAccessPolicyRegistry.scan l1 (Str s)) as [[T|]|e];
    try reflexivity.
  simpl. unfold MediaAccessPolicy.matches. simpl.
  destruct (str_startswith_total s _ Ht1) as [m1 H1]. rewrite H1. simpl.
  destruct m1; [reflexivity|].
  rewrite !scan_app.
  destruct (MediaAccessPolicyRegistry.scan l2 (Str s)) as [[T|]|e];
    try reflexivity.
  simpl. unfold MediaAccessPolicy.matches. simpl.
  destruct (str_startswith_total s _ Ht2) as [m2 H2]. rewrite H2. simpl.
  destruct m2; [|reflexivity].
  exfalso.
  apply (str_startswith_true_iff s _ Ht2) in H2 as (q & Hq & Hs).
  apply starts_with_Z_iff in Hs as [rest ->].
  destruct (Hcov q Hq) as (p & r & Hp & ->).
  assert (str_startswith ((p ++ r) ++ rest)
            (MediaAccessPolicy.restricted_prefixes P1) = Ok true) as H.
  { apply (str_startswith_true_iff _ _ Ht1). exists p. split; [assumption|].
    rewrite <- app_assoc. apply starts_with_app, Z.eqb_refl. }
  congruence.
Qed.

(** X11: when every policy of the registry has text prefixes that can be
    encoded, resolving a path never raises, and an exception that comes out of
    [is_allowed] is the one the predicate of the resolved policy raised. *)
Theorem is_allowed_raises_only_from_predicate
    R (request : Request) path (w w' : W) (e : exn) :
  Forall (fun Q => encodable_prefixes (MediaAccessPolicy.restricted_prefixes Q)
                   = true) (MediaAccessPolicyRegistry.policies R) ->
  (exists r, MediaAccessPolicyRegistry.get_policy_for_path R path = Ok r) /\
  (MediaAccessPolicyRegistry.is_allowed R request path w = (Raise e, w') ->
   exists P,
     MediaAccessPolicyRegistry.get_policy_for_path R path = Ok (Some P) /\
     MediaAccessPolicy.access_check P request path w = (Raise e, w')).
Proof.
  intros Hall.
  destruct (scan_total _ path Hall) as [r Hr].
  unfold MediaAccessPolicyRegistry.is_allowed,
    MediaAccessPolicyRegistry.get_policy_for_path.
  rewrite Hr. split; [eauto|].
  destruct r as [P|]; [|discriminate].
  intros H. exists P. split; [reflexivity | exact H].
Qed.

End RegistryFurther.

(** ** The gate, further *)

Section GateFurther.
Context {Request Response Args W : Type}.
Implicit Types (σ : World Request W).
Implicit Types (R : MediaAccessPolicyRegistry.t Request W).
Implicit Types (view_func : @View Request Response Args W).

Lemma with_caller_id σ : with_caller σ (caller σ) = σ.
Proof. destruct σ. reflexivity. Qed.

(** X12: on a path no policy of the consulted registry matches, the gate
    goes by [default_allow] alone and runs no predicate: the view is called on
    the caller's state as it was when [default_allow] is true, and [Http404]
    is raised, the world left as it was, when it is false. *)
Theorem gate_unmatched_path_goes_by_default
    policy_registry view_func request path args σ l σ1 R :
  effective_registry policy_registry σ = (Ok l, σ1) ->
  registries σ1 !! l = Some R ->
  no_match (MediaAccessPolicyRegistry.policies R) path ->
  check_path policy_registry view_func request path args σ =
  if truthy (MediaAccessPolicyRegistry.default_allow R)
  then (fst (view_func request path args (caller σ1)),
        with_caller σ1 (snd (view_func request path args (caller σ1))))
  else (Raise (Http404 "Restricted media file"), σ1).
Proof.
  intros He Hl Hn.
  rewrite (check_path_unfold _ _ _ _ _ _ _ _ _ He Hl).
  unfold MediaAccessPolicyRegistry.is_allowed,
    MediaAccessPolicyRegistry.get_policy_for_path.
  apply scan_no_match in Hn. rewrite Hn.
  destruct (truthy _); [reflexivity|]. rewrite with_caller_id. reflexivity.
Qed.

(** X13: out of the box the gate is open. With no registry supplied and the
    default registry not built yet (nothing was registered), the wrapped call
    builds the default registry, empty and with [default_allow] true, and
    forwards every request, whatever the path. *)
Theorem gate_open_before_any_registration
    view_func request path args σ :
  default_wrapped σ = None ->
  check_path None view_func request path args σ
  = (fst (view_func request path args (caller σ)),
     with_caller (_setup σ) (snd (view_func request path args (caller σ)))).
Proof.
  intros Hd.
  assert (effective_registry None σ = (Ok (fresh_ref σ), _setup σ)) as He.
  { simpl. unfold wrapped. rewrite Hd. reflexivity. }
  rewrite (check_path_unfold _ _ _ _ _ _ _ _ _ He (setup_default σ)).
  reflexivity.
Qed.

(** X14: the gate tests what [is_allowed] returns with [not], so it is not
    only [False] that denies: when the value returned is [None], [0] or the
    empty string the wrapped call raises [Http404] and the view is not run (a
    predicate that forgets its [return] closes the gate); when it is [True], a
    non-zero integer or a non-empty string the call is forwarded. *)
Theorem gate_goes_by_truth_value
    policy_registry view_func request path args σ l σ1 R (v : value) w :
  effective_registry policy_registry σ = (Ok l, σ1) ->
  registries σ1 !! l = Some R ->
  MediaAccessPolicyRegistry.is_allowed R request path (caller σ1) = (Ok v, w) ->
  (v = VNone \/ v = VBool false \/ v = VInt 0 \/ v = VStr [] ->
   check_path policy_registry view_func request path args σ
   = (Raise (Http404 "Restricted media file"), with_caller σ1 w)) /\
  (v = VBool true \/ (exists n, n <> 0 /\ v = VInt n) \/
   (exists c s, v = VStr (c :: s)) ->
   check_path policy_registry view_func request path args σ
   = (fst (view_func request path args w),
      with_caller σ1 (snd (view_func request path args w)))).
Proof.
  intros He Hl Ha.
  rewrite (check_path_unfold _ _ _ _ _ _ _ _ _ He Hl), Ha.
  split.
  - intros [->|[->|[->| ->]]]; reflexivity.
  - intros [->|[(n & Hn & ->)|(c & s & ->)]]; try reflexivity.
    simpl. destruct (Z.eqb_spec n 0) as [?|_]; [contradiction | reflexivity].
Qed.

End GateFurther.

(** ** The free function [register], further *)

Section RegisterFurther.
Context {Request W : Type}.
Implicit Types (σ : World Request W).
Implicit Types (R : MediaAccessPolicyRegistry.t Request W).
Implicit Types (media_policy policy_registry : pyobj Request W).

Lemma register_resolved media_policy policy_registry σ :
  register media_policy policy_registry σ =
  match resolve_target policy_registry σ with
  | (Ok None, σ1) =>
      (Raise (ValueError "registry must subclass MediaAccessPolicyRegistry"), σ1)
  | (Ok (Some l), σ1) =>
      match as_policy media_policy σ1 with
      | (Ok None, σ2) =>
          (Raise (ValueError "Wrapped class must subclass MediaAccessPolicy."),
           σ2)
      | (Ok (Some p), σ2) => registry_register l p σ2
      | (Raise e, σ2) => (Raise e, σ2)
      end
  | (Raise e, σ1) => (Raise e, σ1)
  end.
Proof.
  unfold register, resolve_target, m_bind.
  destruct (py_or policy_registry PyLazyRegistry σ) as [[registry|e] σa];
    [|reflexivity].
  destruct (as_registry registry σa) as [[[l|]|e] σb]; try reflexivity.
  destruct (as_policy media_policy σb) as [[[p|]|e] σc]; reflexivity.
Qed.

Lemma resolve_target_cases policy_registry σ :
  (is_registry (target_registry policy_registry) = false /\
   resolve_target policy_registry σ = (Ok None, σ)) \/
  (is_registry (target_registry policy_registry) = true /\
   exists l σ1,
     resolve_target policy_registry σ = (Ok (Some l), σ1) /\
     (σ1 = σ \/ default_wrapped σ = None /\ σ1 = _setup σ) /\
     (forall l', default_wrapped σ1 = Some l' ->
                 target_registry policy_registry = PyLazyRegistry -> l' = l)).
Proof.
  assert (exists l σ1,
            wrapped σ = (Ok l, σ1) /\
            (σ1 = σ \/ default_wrapped σ = None /\ σ1 = _setup σ) /\
            default_wrapped σ1 = Some l /\ wrapped σ1 = (Ok l, σ1))
    as (l0 & σ0 & Hw & Hσ0 & Hd0 & Hw0).
  { destruct (wrapped_cases σ) as [(l & Hd & Hw)|[Hd Hw]].
    - exists l, σ. auto.
    - exists (fresh_ref σ), (_setup σ). split; [exact Hw|].
      split; [right; auto|]. split; reflexivity. }
  assert (forall l' : nat, default_wrapped σ0 = Some l' -> l' = l0) as Hsame
    by (intros l' H; congruence).
  unfold resolve_target, py_or, py_bool, m_bind.
  destruct policy_registry as [|p|l| |[|]]; simpl; unfold m_ret, m_bind; simpl.
  - rewrite Hw. right. split; [reflexivity|]. exists l0, σ0.
    split; [reflexivity|]. split; [exact Hσ0 | auto].
  - left. split; reflexivity.
  - right. split; [reflexivity|]. exists l, σ.
    split; [reflexivity|]. split; [left; reflexivity | discriminate].
  - rewrite Hw. simpl. unfold m_bind. rewrite Hw0. right.
    split; [reflexivity|].
    exists l0, σ0. split; [reflexivity|]. split; [exact Hσ0 | auto].
  - left. split; reflexivity.
  - rewrite Hw. right. split; [reflexivity|]. exists l0, σ0.
    split; [reflexivity|]. split; [exact Hσ0 | auto].
Qed.

Lemma as_policy_cases media_policy σ :
  exists σ', as_policy media_policy σ = (Ok (policy_of media_policy), σ') /\
    (σ' = σ \/ default_wrapped σ = None /\ σ' = _setup σ) /\
    (policy_of media_policy <> None -> σ' = σ).
Proof.
  unfold as_policy, m_bind.
  destruct (touch_cases media_policy σ) as (σ' & -> & H & Hsame).
  exists σ'. unfold m_ret. split; [reflexivity|]. split; [exact H|].
  intros Hp. apply Hsame. intros ->. apply Hp. reflexivity.
Qed.

(** X16: [register] does one thing at most. Either it raises, and the world
    is as it was except that the default registry may have been built, empty;
    or it appends the policy it was given to one registry object. It runs no
    predicate and leaves the caller's state alone. *)
Theorem register_touches_one_registry media_policy policy_registry σ :
  caller (snd (register media_policy policy_registry σ)) = caller σ /\
  exists σ1,
    (σ1 = σ \/ default_wrapped σ = None /\ σ1 = _setup σ) /\
    ((exists e, register media_policy policy_registry σ = (Raise e, σ1)) \/
     (exists l R p,
        media_policy = PyPolicy p /\
        registries σ1 !! l = Some R /\
        register media_policy policy_registry σ
        = (Ok tt,
           with_registry σ1 l (MediaAccessPolicyRegistry.register R p)))).
Proof.
  assert (forall σ1, (σ1 = σ \/ default_wrapped σ = None /\ σ1 = _setup σ) ->
            caller σ1 = caller σ) as Hcaller.
  { intros σ1 [->|[_ ->]]; reflexivity. }
  assert (exists σ1,
    (σ1 = σ \/ default_wrapped σ = None /\ σ1 = _setup σ) /\
    ((exists e, register media_policy policy_registry σ = (Raise e, σ1)) \/
     (exists l R p,
        media_policy = PyPolicy p /\
        registries σ1 !! l = Some R /\
        register media_policy policy_registry σ
        = (Ok tt,
           with_registry σ1 l (MediaAccessPolicyRegistry.register R p)))))
    as (σ1 & Hσ1 & Hres).
  { rewrite register_resolved.
    destruct (resolve_target_cases policy_registry σ)
      as [[_ ->]|(_ & l & σ1 & -> & Hσ1 & _)].
    - exists σ. split; [left; reflexivity|]. left. eauto.
    - destruct (as_policy_cases media_policy σ1) as (σ2 & -> & Hσ2 & Hsame).
      destruct (policy_of media_policy) as [p|] eqn:Hp.
      + assert (σ2 = σ1) as -> by (apply Hsame; discriminate).
        exists σ1. split; [exact Hσ1|].
        unfold registry_register, m_bind, load.
        destruct (registries σ1 !! l) as [R|] eqn:Hl.
        * right. exists l, R, p. repeat split; [|exact Hl].
          destruct media_policy; try discriminate. injection Hp as ->.
          reflexivity.
        * left. eauto.
      + exists σ2. split.
        * destruct Hσ1 as [->|[Hd ->]]; [exact Hσ2|].
          destruct Hσ2 as [->|[Hd' ->]];
            [right; split; [assumption | reflexivity] | discriminate].
        * left. eauto. }
  split.
  - destruct Hres as [[e ->]|(l & R & p & _ & _ & ->)]; simpl;
      apply Hcaller, Hσ1.
  - exists σ1. split; assumption.
Qed.

(** X17: the registry is checked before the policy. When what [register]
    would work on is not a registry the error is
    ["registry must subclass MediaAccessPolicyRegistry"], whatever the policy
    argument is, and the world is untouched; when it is a registry and the
    policy argument is not a policy the error is
    ["Wrapped class must subclass MediaAccessPolicy."]. *)
Theorem register_checks_registry_first media_policy policy_registry σ :
  (is_registry (target_registry policy_registry) = false ->
   register media_policy policy_registry σ
   = (Raise (ValueError "registry must subclass MediaAccessPolicyRegistry"),
      σ)) /\
  (is_registry (target_registry policy_registry) = true ->
   policy_of media_policy = None ->
   fst (register media_policy policy_registry σ)
   = Raise (ValueError "Wrapped class must subclass MediaAccessPolicy.")).
Proof.
  rewrite register_resolved. split.
  - intros H.
    destruct (resolve_target_cases policy_registry σ)
      as [[_ ->]|(H' & _)]; [reflexivity | congruence].
  - intros H Hp.
    destruct (resolve_target_cases policy_registry σ)
      as [[H' _]|(_ & l & σ1 & -> & _)]; [congruence|].
    destruct (as_policy_cases media_policy σ1) as (σ2 & -> & _).
    rewrite Hp. reflexivity.
Qed.

End RegisterFurther.

(** ** [register] and the gate together *)

Section RegisterAndGate.
Context {Request Response Args W : Type}.
Implicit Types (σ : World Request W).
Implicit Types (R : MediaAccessPolicyRegistry.t Request W).
Implicit Types (P : MediaAccessPolicy.t Request W).
Implicit Types (view_func : @View Request Response Args W).

Lemma with_registry_twice σ l R R' :
  with_registry (with_registry σ l R) l R' = with_registry σ l R'.
Proof.
  unfold with_registry. simpl. f_equal. apply insert_insert_eq.
Qed.

Lemma with_registry_same σ l R :
  registries σ !! l = Some R -> with_registry σ l R = σ.
Proof.
  intros H. destruct σ as [m d c]. unfold with_registry. simpl in *.
  f_equal. apply insert_id, H.
Qed.

(** Once resolved, the registry stays the one consulted as long as the
    default slot is not touched. *)
Lemma effective_registry_stable (policy_registry : option nat) σ l σ1 σ' :
  effective_registry policy_registry σ = (Ok l, σ1) ->
  default_wrapped σ' = default_wrapped σ1 ->
  effective_registry policy_registry σ' = (Ok l, σ').
Proof.
  destruct policy_registry as [l0|]; simpl.
  - unfold m_ret. intros [= <- <-] _. reflexivity.
  - intros Hw Hd. unfold wrapped.
    destruct (wrapped_cases σ) as [(l' & Hd' & Hw')|[Hd' Hw']];
      rewrite Hw' in Hw; injection Hw as <- <-.
    + rewrite Hd, Hd'. reflexivity.
    + rewrite Hd. reflexivity.
Qed.

Lemma register_appends (policy_registry : option nat) σ l σ1 R P :
  effective_registry policy_registry σ = (Ok l, σ1) ->
  registries σ1 !! l = Some R ->
  register (PyPolicy P) (as_object policy_registry) σ
  = (Ok tt, with_registry σ1 l (MediaAccessPolicyRegistry.register R P)).
Proof.
  intros He Hl. unfold register, py_or, py_bool, m_bind.
  destruct policy_registry as [l0|]; simpl in *; unfold m_ret in *; simpl.
  - injection He as <- <-. unfold registry_register, m_bind, load.
    rewrite Hl. reflexivity.
  - unfold m_bind. rewrite He. simpl.
    unfold registry_register, m_bind, load. rewrite Hl. reflexivity.
Qed.

(** X18: a policy registered after the view was decorated is enforced. The
    gate reads the registry when it is called: after [register(P, registry)]
    the wrapped call decides by the registry with [P] appended, on the
    registry supplied to both and, when none is supplied to either, on the
    default registry they share. *)
Theorem registered_policy_reaches_gate
    (policy_registry : option nat) view_func request path args σ l σ1 R P :
  effective_registry policy_registry σ = (Ok l, σ1) ->
  registries σ1 !! l = Some R ->
  register (PyPolicy P) (as_object policy_registry) σ
  = (Ok tt, with_registry σ1 l (MediaAccessPolicyRegistry.register R P)) /\
  check_path policy_registry view_func request path args
    (with_registry σ1 l (MediaAccessPolicyRegistry.register R P))
  = match MediaAccessPolicyRegistry.is_allowed
            (MediaAccessPolicyRegistry.register R P) request path (caller σ1)
    with
    | (Ok allowed, w) =>
        if truthy allowed
        then (fst (view_func request path args w),
              with_caller
                (with_registry σ1 l (MediaAccessPolicyRegistry.register R P))
                (snd (view_func request path args w)))
        else (Raise (Http404 "Restricted media file"),
              with_caller
                (with_registry σ1 l (MediaAccessPolicyRegistry.register R P))
                w)
    | (Raise e, w) =>
        (Raise e,
         with_caller
           (with_registry σ1 l (MediaAccessPolicyRegistry.register R P)) w)
    end.
Proof.
  intros He Hl. split; [apply register_appends; assumption|].
  assert (effective_registry policy_registry
            (with_registry σ1 l (MediaAccessPolicyRegistry.register R P))
          = (Ok l, with_registry σ1 l (MediaAccessPolicyRegistry.register R P)))
    as He2.
  { apply (effective_registry_stable policy_registry σ l σ1); [exact He|].
    reflexivity. }
  assert (registries
            (with_registry σ1 l (MediaAccessPolicyRegistry.register R P)) !! l
          = Some (MediaAccessPolicyRegistry.register R P)) as Hl2.
  { simpl. apply lookup_insert_eq. }
  rewrite (check_path_unfold _ view_func request path args _ _ _ _ He2 Hl2).
  reflexivity.
Qed.

Lemma register_each_resolved (policy_registry : option nat)
    (ps : list (MediaAccessPolicy.t Request W)) σ1 l R :
  effective_registry policy_registry σ1 = (Ok l, σ1) ->
  registries σ1 !! l = Some R ->
  register_each (map PyPolicy ps) (as_object policy_registry) σ1
  = (Ok tt,
     with_registry σ1 l
       (MediaAccessPolicyRegistry.init
          (MediaAccessPolicyRegistry.policies R ++ ps)
          (MediaAccessPolicyRegistry.default_allow R))).
Proof.
  revert σ1 R. induction ps as [|p ps IH]; intros σ1 R He Hl; simpl.
  - rewrite app_nil_r. unfold m_ret. f_equal. symmetry.
    apply with_registry_same. rewrite Hl. destruct R. reflexivity.
  - unfold m_bind. rewrite (register_appends _ _ _ _ _ _ He Hl).
    rewrite (IH (with_registry σ1 l (MediaAccessPolicyRegistry.register R p))
               (MediaAccessPolicyRegistry.register R p)).
    + rewrite with_registry_twice. simpl. rewrite <- app_assoc. reflexivity.
    + apply (effective_registry_stable policy_registry σ1 l σ1);
        [exact He | reflexivity].
    + simpl. apply lookup_insert_eq.
Qed.

(** X19: registrations add up in the order of the calls. After
    [register(p1, registry)], ..., [register(pn, registry)] (what the
    [media_policies] modules do at start-up) the registry holds what it held
    followed by [p1, ..., pn], keeps its [default_allow], and no call has
    raised; without a registry argument that is the default registry, built by
    the first call if need be. *)
Theorem registrations_add_up_in_order (policy_registry : option nat)
    (p : MediaAccessPolicy.t Request W)
    (ps : list (MediaAccessPolicy.t Request W)) σ l σ1 R :
  effective_registry policy_registry σ = (Ok l, σ1) ->
  registries σ1 !! l = Some R ->
  register_each (map PyPolicy (p :: ps)) (as_object policy_registry) σ
  = (Ok tt,
     with_registry σ1 l
       (MediaAccessPolicyRegistry.init
          (MediaAccessPolicyRegistry.policies R ++ p :: ps)
          (MediaAccessPolicyRegistry.default_allow R))).
Proof.
  intros He Hl. simpl. unfold m_bind.
  rewrite (register_appends _ _ _ _ _ _ He Hl).
  rewrite (register_each_resolved policy_registry ps
             (with_registry σ1 l (MediaAccessPolicyRegistry.register R p)) l
             (MediaAccessPolicyRegistry.register R p)).
  - rewrite with_registry_twice. simpl. rewrite <- app_assoc. reflexivity.
  - apply (effective_registry_stable policy_registry σ l σ1);
      [exact He | reflexivity].
  - simpl. apply lookup_insert_eq.
Qed.

End RegisterAndGate.

(** ** The example project *)

(** X20: in the example project every name [UploadFileView] can save a
    file under is governed as its folder says: whichever folder of the form is
    chosen and whatever the file is called, [auth_policy] matches the name
    when the folder is [images] or [profiles] and does not when it is
    [general]. *)
Theorem upload_folders_are_governed (folder name : pystr) :
  In folder Examples.UPLOAD_FOLDER_CHOICES ->
  (folder <> str_of "general" /\
   MediaAccessPolicy.matches Examples.auth_policy
     (Str (upload_name folder name)) = Ok true) \/
  (folder = str_of "general" /\
   MediaAccessPolicy.matches Examples.auth_policy
     (Str (upload_name folder name)) = Ok false).
Proof.
  intros [<-|[<-|[<-|[]]]].
  - left. split; [discriminate|].
    apply (matches_str_prefix Examples.auth_policy (str_of "profiles/") name);
      [reflexivity | right; left; reflexivity].
  - right. split; reflexivity.
  - left. split; [discriminate|].
    apply (matches_str_prefix Examples.auth_policy (str_of "images/") name);
      [reflexivity | left; reflexivity].
Qed.

(** ** The further properties on the objects of the example project *)

(** X1 at [auth_policy]: a path that reaches [images/] through [./] is not
    matched, since it does not start with a prefix. *)
Lemma matches_text_path_iff_witness :
  text_prefixes (MediaAccessPolicy.restricted_prefixes auth_policy) = true /\
  MediaAccessPolicy.matches auth_policy (Str (str_of "./images/a.jpg"))
  = Ok false /\
  exists m,
    MediaAccessPolicy.matches auth_policy (Str (str_of "./images/a.jpg"))
    = Ok m /\
    (m = true <->
     exists p rest,
       In (Str p) (MediaAccessPolicy.restricted_prefixes auth_policy) /\
       str_of "./images/a.jpg" = p ++ rest).
Proof.
  split; [reflexivity|]. split; [reflexivity|].
  exact (matches_text_path_iff auth_policy (str_of "./images/a.jpg") eq_refl).
Defined.

(** X2 at [auth_policy] and a byte path. *)
Lemma matches_byte_path_iff_witness :
  encodable_prefixes (MediaAccessPolicy.restricted_prefixes auth_policy)
  = true /\
  exists m,
    MediaAccessPolicy.matches auth_policy (Bytes (bytes_of "profiles/me.png"))
    = Ok m /\
    (m = true <->
     exists p bp rest,
       In (Str p) (MediaAccessPolicy.restricted_prefixes auth_policy) /\
       str_encode p = Ok bp /\ bytes_of "profiles/me.png" = bp ++ rest).
Proof.
  split; [reflexivity|].
  exact (matches_byte_path_iff auth_policy (bytes_of "profiles/me.png")
           eq_refl).
Defined.

(** X3 at [auth_policy] and a path with a letter of two bytes. *)
Lemma matches_same_on_text_and_bytes_witness :
  valid_prefixes (MediaAccessPolicy.restricted_prefixes auth_policy) = true /\
  encodable_prefixes (MediaAccessPolicy.restricted_prefixes auth_policy)
  = true /\
  valid_str (str_of "images/" ++ [0xE9] ++ str_of ".png") = true /\
  str_encode (str_of "images/" ++ [0xE9] ++ str_of ".png")
  = Ok (bytes_of "images/" ++ [xc3; xa9] ++ bytes_of ".png") /\
  MediaAccessPolicy.matches auth_policy
    (Bytes (bytes_of "images/" ++ [xc3; xa9] ++ bytes_of ".png"))
  = MediaAccessPolicy.matches auth_policy
      (Str (str_of "images/" ++ [0xE9] ++ str_of ".png")).
Proof.
  do 4 (split; [reflexivity|]).
  exact (matches_same_on_text_and_bytes auth_policy
           (str_of "images/" ++ [0xE9] ++ str_of ".png")
           (bytes_of "images/" ++ [xc3; xa9] ++ bytes_of ".png")
           eq_refl eq_refl eq_refl eq_refl).
Defined.

(** X4 at the policy with a lone surrogate before [images/]. *)
Lemma matches_byte_path_raises_witness :
  encodable_prefixes (MediaAccessPolicy.restricted_prefixes surrogate_policy)
  = false /\
  ((forall b, MediaAccessPolicy.matches surrogate_policy (Bytes b)
              = Raise AttributeError) \/
   (forall b, MediaAccessPolicy.matches surrogate_policy (Bytes b)
              = Raise UnicodeEncodeError)).
Proof.
  split; [reflexivity|].
  exact (matches_byte_path_raises surrogate_policy eq_refl).
Defined.

(** X5 at [auth_policy] and the same prefixes in another order. *)
Lemma matches_prefix_order_irrelevant_witness :
  (forall q, In q (MediaAccessPolicy.restricted_prefixes auth_policy) <->
             In q (MediaAccessPolicy.restricted_prefixes auth_policy_reordered))
  /\
  (forall s, MediaAccessPolicy.matches auth_policy (Str s)
             = MediaAccessPolicy.matches auth_policy_reordered (Str s)) /\
  (forall b, MediaAccessPolicy.matches auth_policy (Bytes b)
             = MediaAccessPolicy.matches auth_policy_reordered (Bytes b)).
Proof.
  assert (forall q, In q (MediaAccessPolicy.restricted_prefixes auth_policy) <->
            In q (MediaAccessPolicy.restricted_prefixes auth_policy_reordered))
    as Hsame.
  { intros q. simpl. tauto. }
  split; [exact Hsame|].
  destruct (matches_prefix_order_irrelevant auth_policy auth_policy_reordered
              Hsame) as [Htext Hbytes].
  split; [exact (Htext eq_refl) | exact (Hbytes eq_refl)].
Defined.

(** X7: registering the policy of tests.py a second time. *)
Lemma register_again_changes_nothing_witness :
  In policy (MediaAccessPolicyRegistry.policies registry) /\
  MediaAccessPolicyRegistry.get_policy_for_path
    (MediaAccessPolicyRegistry.register registry policy)
    (Str (str_of "images/a.jpg"))
  = MediaAccessPolicyRegistry.get_policy_for_path registry
      (Str (str_of "images/a.jpg")) /\
  MediaAccessPolicyRegistry.is_allowed
    (MediaAccessPolicyRegistry.register registry policy) anonymous
    (Str (str_of "images/a.jpg")) 0%nat
  = MediaAccessPolicyRegistry.is_allowed registry anonymous
      (Str (str_of "images/a.jpg")) 0%nat.
Proof.
  assert (In policy (MediaAccessPolicyRegistry.policies registry)) as Hin.
  { left. reflexivity. }
  split; [exact Hin|].
  exact (register_again_changes_nothing registry policy anonymous
           (Str (str_of "images/a.jpg")) 0%nat Hin).
Defined.

(** X8: [thumbs_policy] does not match [images/a.jpg], so its place before
    or after [auth_policy] does not count there. *)
Lemma register_order_where_it_counts_witness :
  MediaAccessPolicy.matches thumbs_policy (Str (str_of "images/a.jpg"))
  = Ok false /\
  MediaAccessPolicyRegistry.get_policy_for_path
    (MediaAccessPolicyRegistry.register
       (MediaAccessPolicyRegistry.register
          (MediaAccessPolicyRegistry.init [] (VBool true)) thumbs_policy)
       auth_policy)
    (Str (str_of "images/a.jpg"))
  = MediaAccessPolicyRegistry.get_policy_for_path
      (MediaAccessPolicyRegistry.register
         (MediaAccessPolicyRegistry.register
            (MediaAccessPolicyRegistry.init [] (VBool true)) auth_policy)
         thumbs_policy)
      (Str (str_of "images/a.jpg")).
Proof.
  split; [reflexivity|].
  apply (register_order_where_it_counts
           (MediaAccessPolicyRegistry.init [] (VBool true))
           thumbs_policy auth_policy (Str (str_of "images/a.jpg"))).
  left. reflexivity.
Defined.

(** X9: [images/a.jpg] already resolves in the registry of tests.py. *)
Lemma register_changes_only_new_paths_witness :
  MediaAccessPolicyRegistry.get_policy_for_path registry
    (Str (str_of "images/a.jpg")) = Ok (Some policy) /\
  MediaAccessPolicyRegistry.is_allowed
    (MediaAccessPolicyRegistry.register registry deny_images) authenticated
    (Str (str_of "images/a.jpg")) 0%nat
  = MediaAccessPolicyRegistry.is_allowed registry authenticated
      (Str (str_of "images/a.jpg")) 0%nat.
Proof.
  split; [reflexivity|].
  apply (register_changes_only_new_paths registry deny_images authenticated
           (Str (str_of "images/a.jpg")) 0%nat).
  left. discriminate.
Defined.

(** X10: [thumbs_policy] after [auth_policy] is dead. *)
Lemma covered_policy_is_dead_witness :
  covers auth_policy thumbs_policy /\
  MediaAccessPolicyRegistry.get_policy_for_path
    (MediaAccessPolicyRegistry.init
       ([] ++ auth_policy :: [] ++ thumbs_policy :: []) (VBool true))
    (Str (str_of "images/thumbs/a.jpg"))
  = MediaAccessPolicyRegistry.get_policy_for_path
      (MediaAccessPolicyRegistry.init ([] ++ auth_policy :: [] ++ [])
         (VBool true))
      (Str (str_of "images/thumbs/a.jpg")).
Proof.
  assert (covers auth_policy thumbs_policy) as Hcov.
  { intros q [Hq|[]]. injection Hq as <-.
    exists (str_of "images/"), (str_of "thumbs/").
    split; [left; reflexivity | reflexivity]. }
  split; [exact Hcov|].
  exact (covered_policy_is_dead [] [] [] auth_policy thumbs_policy
           (VBool true) (str_of "images/thumbs/a.jpg") eq_refl eq_refl Hcov).
Defined.

(** X11 at the registry of tests.py and at the policy whose predicate
    raises. *)
Lemma is_allowed_raises_only_from_predicate_witness :
  Forall (fun Q => encodable_prefixes (MediaAccessPolicy.restricted_prefixes Q)
                   = true) [failing_images] /\
  MediaAccessPolicyRegistry.is_allowed
    (MediaAccessPolicyRegistry.init [failing_images] (VBool true)) anonymous
    (Str (str_of "images/a.jpg")) 0%nat
  = (Raise (OtherException "RuntimeError" "database is down"), 0%nat) /\
  exists P,
    MediaAccessPolicyRegistry.get_policy_for_path
      (MediaAccessPolicyRegistry.init [failing_images] (VBool true))
      (Str (str_of "images/a.jpg")) = Ok (Some P) /\
    MediaAccessPolicy.access_check P anonymous (Str (str_of "images/a.jpg"))
      0%nat
    = (Raise (OtherException "RuntimeError" "database is down"), 0%nat).
Proof.
  assert (Forall (fun Q : MediaAccessPolicy.t Request Calls =>
                    encodable_prefixes (MediaAccessPolicy.restricted_prefixes Q)
                    = true) [failing_images]) as Hall.
  { constructor; [reflexivity | constructor]. }
  split; [exact Hall|]. split; [reflexivity|].
  exact (proj2 (is_allowed_raises_only_from_predicate
                  (MediaAccessPolicyRegistry.init [failing_images] (VBool true))
                  anonymous (Str (str_of "images/a.jpg")) 0%nat 0%nat
                  (OtherException "RuntimeError" "database is down") Hall)
           eq_refl).
Defined.

(** X12: the registry of tests.py has [default_allow] false, so a path
    outside [images/] is refused, to everybody. *)
Lemma gate_unmatched_path_goes_by_default_witness :
  no_match (MediaAccessPolicyRegistry.policies registry)
    (Str (str_of "general/x.png")) /\
  check_path (Some 0%nat) ok_view authenticated (Str (str_of "general/x.png"))
    tt world0
  = (Raise (Http404 "Restricted media file"), world0).
Proof.
  assert (no_match (MediaAccessPolicyRegistry.policies registry)
            (Str (str_of "general/x.png"))) as Hn.
  { constructor; [reflexivity | constructor]. }
  split; [exact Hn|].
  exact (gate_unmatched_path_goes_by_default (Some 0%nat) ok_view authenticated
           (Str (str_of "general/x.png")) tt world0 0%nat world0 registry
           eq_refl eq_refl Hn).
Defined.

(** X13: [secure_media_path(serve)] before anything is registered. *)
Lemma gate_open_before_any_registration_witness :
  default_wrapped world_fresh = None /\
  check_path None ok_view anonymous (Str (str_of "images/a.jpg")) tt world_fresh
  = (Ok {| status_code := 200; content := "OK" |},
     with_caller (_setup world_fresh) 1%nat).
Proof.
  split; [reflexivity|].
  exact (gate_open_before_any_registration ok_view anonymous
           (Str (str_of "images/a.jpg")) tt world_fresh eq_refl).
Defined.

(** X14: a predicate that returns [None] closes the gate. *)
Lemma gate_goes_by_truth_value_witness :
  MediaAccessPolicyRegistry.is_allowed
    (MediaAccessPolicyRegistry.init [none_images] (VBool true)) authenticated
    (Str (str_of "images/a.jpg")) 0%nat = (Ok VNone, 0%nat) /\
  check_path (Some 0%nat) ok_view authenticated (Str (str_of "images/a.jpg")) tt
    world_none
  = (Raise (Http404 "Restricted media file"), world_none).
Proof.
  split; [reflexivity|].
  apply (proj1 (gate_goes_by_truth_value (Some 0%nat) ok_view authenticated
                  (Str (str_of "images/a.jpg")) tt world_none 0%nat world_none
                  (MediaAccessPolicyRegistry.init [none_images] (VBool true))
                  VNone 0%nat eq_refl eq_refl eq_refl)).
  left. reflexivity.
Defined.

(** X18 on the example project: [register(auth_policy)] in
    media_policies.py, then the gate of urls.py, both on the default
    registry; an anonymous request for a file under [images/] is refused. *)
Lemma registered_policy_reaches_gate_witness :
  effective_registry None world_fresh
  = (Ok (fresh_ref world_fresh), _setup world_fresh) /\
  register (PyPolicy auth_policy) PyNone world_fresh
  = (Ok tt,
     with_registry (_setup world_fresh) (fresh_ref world_fresh)
       (MediaAccessPolicyRegistry.register
          (MediaAccessPolicyRegistry.init [] (VBool true)) auth_policy)) /\
  check_path None ok_view anonymous (Str (str_of "images/a.jpg")) tt
    (with_registry (_setup world_fresh) (fresh_ref world_fresh)
       (MediaAccessPolicyRegistry.register
          (MediaAccessPolicyRegistry.init [] (VBool true)) auth_policy))
  = (Raise (Http404 "Restricted media file"),
     with_registry (_setup world_fresh) (fresh_ref world_fresh)
       (MediaAccessPolicyRegistry.register
          (MediaAccessPolicyRegistry.init [] (VBool true)) auth_policy)).
Proof.
  split; [reflexivity|].
  assert (registries (_setup world_fresh) !! fresh_ref world_fresh
          = Some (MediaAccessPolicyRegistry.init [] (VBool true))) as Hl.
  { vm_compute. reflexivity. }
  destruct (@registered_policy_reaches_gate Request HttpResponse unit Calls
              None ok_view anonymous (Str (str_of "images/a.jpg")) tt
              world_fresh (fresh_ref world_fresh) (_setup world_fresh)
              (MediaAccessPolicyRegistry.init [] (VBool true)) auth_policy
              eq_refl Hl) as [Hreg Hgate].
  split; [exact Hreg | exact Hgate].
Defined.

(** X19: two registrations on the default registry of a fresh world. *)
Lemma registrations_add_up_in_order_witness :
  effective_registry None world_fresh
  = (Ok (fresh_ref world_fresh), _setup world_fresh) /\
  register_each (map PyPolicy [policy; auth_policy]) PyNone world_fresh
  = (Ok tt,
     with_registry (_setup world_fresh) (fresh_ref world_fresh)
       (MediaAccessPolicyRegistry.init ([] ++ [policy; auth_policy])
          (VBool true))).
Proof.
  split; [reflexivity|].
  assert (registries (_setup world_fresh) !! fresh_ref world_fresh
          = Some (MediaAccessPolicyRegistry.init [] (VBool true))) as Hl.
  { vm_compute. reflexivity. }
  exact (registrations_add_up_in_order None policy [auth_policy] world_fresh
           (fresh_ref world_fresh) (_setup world_fresh)
           (MediaAccessPolicyRegistry.init [] (VBool true)) eq_refl Hl).
Defined.

(** X20 at the folder [images]. *)
Lemma upload_folders_are_governed_witness :
  In (str_of "images") UPLOAD_FOLDER_CHOICES /\
  ((str_of "images" <> str_of "general" /\
    MediaAccessPolicy.matches auth_policy
      (Str (upload_name (str_of "images") (str_of "a.jpg"))) = Ok true) \/
   (str_of "images" = str_of "general" /\
    MediaAccessPolicy.matches auth_policy
      (Str (upload_name (str_of "images") (str_of "a.jpg"))) = Ok false)).
Proof.
  assert (In (str_of "images") UPLOAD_FOLDER_CHOICES) as Hin.
  { right. right. left. reflexivity. }
  split; [exact Hin|].
  exact (upload_folders_are_governed (str_of "images") (str_of "a.jpg") Hin).
Defined.
